(** * ray.dag.context: the process-wide DAGContext singleton

    A shallow embedding of [python/ray/dag/context.py].  The module has three
    parts, and the development follows them in order:

    - module-level code, run once when the module is imported: it binds
      [_default_context = None] and the eight [DEFAULT_*] constants, each
      read from [os.environ] and converted with [int(...)] or [bool(...)];
    - the dataclass [DAGContext], whose generated [__init__] takes the
      [DEFAULT_*] values as its parameter defaults;
    - the static method [DAGContext.get_current], which creates the
      singleton under [_context_lock] on its first call.

    Python objects have identity, so [DAGContext] instances live in a heap
    and are handled through references. *)

From Stdlib Require Import ZArith String Ascii List Lia.
From Stdlib Require Import Floats.SpecFloat.
From stdpp Require Import base option list gmap strings pretty.

Local Open Scope Z_scope.

(** ** Python values and exceptions *)

(** The objects the module handles: what [os.environ.get] can return (a
    [str] from the environment, or the [int] / [float] literal passed as
    fallback), what [int] and [bool] return, and what a field of the
    dataclass can hold.  A [float] is an IEEE binary64 value. *)
Inductive value : Type :=
  | VNone
  | VBool (b : bool)
  | VInt (n : Z)
  | VFloat (f : spec_float)
  | VStr (s : string).

(** Exceptions are identified by the name of their class. *)
Definition exn : Type := string.

Definition ValueError : exn := "ValueError".
Definition TypeError : exn := "TypeError".
Definition OverflowError : exn := "OverflowError".

Inductive result (A : Type) : Type :=
  | Ok (a : A)
  | Raise (e : exn).
Arguments Ok {A} a.
Arguments Raise {A} e.

(** Exceptions propagate: [result] is the error monad, with stdpp's
    [x ← m; k] for sequencing. *)
#[global] Instance result_ret : MRet result := fun A a => Ok a.
#[global] Instance result_bind : MBind result := fun A B k m =>
  match m with
  | Ok a => k a
  | Raise e => Raise e
  end.

(** ** [int(...)] on a string

    [int(s)] with the default base 10, as CPython's [PyLong_FromString]
    reads it: leading white space, an optional sign, decimal digits in
    which single underscores may separate digits, trailing white space,
    and nothing else.  Characters are code points below 256. *)

Module PyInt.

(** [Py_ISSPACE] for the ASCII range; U+0085 and U+00A0 are the white
    space characters of the Latin-1 range, which [int] maps to a blank
    before parsing. *)
Definition is_space (c : ascii) : bool :=
  let n := nat_of_ascii c in
  ((9 <=? n)%nat && (n <=? 13)%nat) || (n =? 32)%nat
  || (n =? 133)%nat || (n =? 160)%nat.

Definition digit_value (c : ascii) : option Z :=
  let n := nat_of_ascii c in
  if ((48 <=? n)%nat && (n <=? 57)%nat)%bool
  then Some (Z.of_nat (n - 48)) else None.

Definition is_underscore (c : ascii) : bool := (nat_of_ascii c =? 95)%nat.

Fixpoint skip_space (s : string) : string :=
  match s with
  | String c rest => if is_space c then skip_space rest else s
  | EmptyString => s
  end.

(** [sys.int_info.default_max_str_digits]: longer digit strings are
    refused with [ValueError]. *)
Definition max_str_digits : nat := 4300.

(** The scanning loop of [long_from_string_base].  [prev_us] tells whether
    the previous character was an underscore, [acc] is the number read so
    far and [digits] counts the digits (not the underscores).  The result
    is the number, the digit count and the unread rest; [None] is the
    error exit on a doubled or trailing underscore. *)
Fixpoint scan (prev_us : bool) (acc : Z) (digits : nat) (s : string)
  : option (Z * nat * string) :=
  match s with
  | EmptyString => if prev_us then None else Some (acc, digits, s)
  | String c rest =>
      match digit_value c with
      | Some d => scan false (10 * acc + d) (S digits) rest
      | None =>
          if is_underscore c
          then (if prev_us then None else scan true acc digits rest)
          else (if prev_us then None else Some (acc, digits, s))
      end
  end.

Definition take_sign (s : string) : bool * string :=
  match s with
  | String "+" rest => (false, rest)
  | String "-" rest => (true, rest)
  | _ => (false, s)
  end.

Definition starts_with_underscore (s : string) : bool :=
  match s with
  | String c _ => is_underscore c
  | EmptyString => false
  end.

(** [None] stands for the [ValueError] "invalid literal for int() with
    base 10" (or the digit-limit [ValueError]). *)
Definition of_string (s : string) : option Z :=
  let '(neg, body) := take_sign (skip_space s) in
  if starts_with_underscore body then None
  else
    match scan false 0 0%nat body with
    | None => None
    | Some (n, digits, rest) =>
        if (digits =? 0)%nat then None
        else
          match skip_space rest with
          | EmptyString =>
              if (max_str_digits <? digits)%nat then None
              else Some (if neg then - n else n)
          | String _ _ => None
          end
    end.

End PyInt.

(** [int(float)]: truncation towards zero; infinities raise
    [OverflowError] and NaN raises [ValueError]. *)
Definition int_of_float (f : spec_float) : result Z :=
  match f with
  | S754_zero _ => Ok 0
  | S754_infinity _ => Raise OverflowError
  | S754_nan => Raise ValueError
  | S754_finite neg m e =>
      let mag :=
        match e with
        | Z0 => Zpos m
        | Zpos p => Z.shiftl (Zpos m) (Zpos p)
        | Zneg p => Z.shiftr (Zpos m) (Zpos p)
        end in
      Ok (if neg then - mag else mag)
  end.

(** The builtin [int(x)]. *)
Definition py_int (x : value) : result Z :=
  match x with
  | VInt n => Ok n
  | VBool b => Ok (if b then 1 else 0)
  | VFloat f => int_of_float f
  | VStr s =>
      match PyInt.of_string s with
      | Some n => Ok n
      | None => Raise ValueError
      end
  | VNone => Raise TypeError
  end.

Definition float_is_zero (f : spec_float) : bool :=
  match f with
  | S754_zero _ => true
  | _ => false
  end.

(** The builtin [bool(x)]: Python's truth value of an object.  A string is
    false only when it is empty, a number only when it is zero. *)
Definition py_bool (x : value) : bool :=
  match x with
  | VNone => false
  | VBool b => b
  | VInt n => negb (n =? 0)%Z
  | VFloat f => negb (float_is_zero f)
  | VStr s => negb (String.length s =? 0)%nat
  end.

(** ** Float literals *)

(** The literal [1e6] as a binary64 value: [1000000 = 15625 * 2^6], with
    the 53-bit significand [15625 * 2^39] and exponent [-33]. *)
Definition float_1e6 : spec_float :=
  S754_finite false 8589934592000000 (-33).

(** ** The environment *)

(** [os.environ]: a mapping from variable names to strings. *)
Abbreviation environ := (gmap string string).

(** [os.environ.get(key, default)] *)
Definition environ_get (env : environ) (key : string) (default : value)
  : value :=
  match env !! key with
  | Some s => VStr s
  | None => default
  end.

(** ** Module-level code

    Lines 8 to 33 run once, when the module is imported.  Each [DEFAULT_*]
    name is bound to the converted environment value, or to the converted
    literal when the variable is not set. *)

Record constants : Type := {
  DEFAULT_SUBMIT_TIMEOUT_S : Z;
  DEFAULT_GET_TIMEOUT_S : Z;
  DEFAULT_TEARDOWN_TIMEOUT_S : Z;
  DEFAULT_BUFFER_SIZE_BYTES : Z;
  DEFAULT_ASYNCIO_MAX_QUEUE_SIZE : Z;
  DEFAULT_MAX_BUFFERED_RESULTS : Z;
  DEFAULT_MAX_INFLIGHT_EXECUTIONS : Z;
  DEFAULT_OVERLAP_GPU_COMMUNICATION : bool
}.

Definition module_constants (env : environ) : result constants :=
  submit ← py_int (environ_get env "RAY_CGRAPH_submit_timeout" (VInt 10));
  get ← py_int (environ_get env "RAY_CGRAPH_get_timeout" (VInt 10));
  teardown ← py_int (environ_get env "RAY_CGRAPH_teardown_timeout" (VInt 30));
  buffer ←
    py_int (environ_get env "RAY_CGRAPH_buffer_size_bytes" (VFloat float_1e6));
  queue ←
    py_int (environ_get env "RAY_CGRAPH_asyncio_max_queue_size" (VInt 0));
  results ←
    py_int (environ_get env "RAY_CGRAPH_max_buffered_results" (VInt 1000));
  inflight ←
    py_int (environ_get env "RAY_CGRAPH_max_inflight_executions" (VInt 10));
  let overlap :=
    py_bool
      (environ_get env "RAY_CGRAPH_overlap_gpu_communication" (VInt 0)) in
  mret {| DEFAULT_SUBMIT_TIMEOUT_S := submit;
          DEFAULT_GET_TIMEOUT_S := get;
          DEFAULT_TEARDOWN_TIMEOUT_S := teardown;
          DEFAULT_BUFFER_SIZE_BYTES := buffer;
          DEFAULT_ASYNCIO_MAX_QUEUE_SIZE := queue;
          DEFAULT_MAX_BUFFERED_RESULTS := results;
          DEFAULT_MAX_INFLIGHT_EXECUTIONS := inflight;
          DEFAULT_OVERLAP_GPU_COMMUNICATION := overlap |}.

(** ** The dataclass *)

(** A [DAGContext] instance.  The annotations [int] and [bool] are not
    enforced when Python runs, so a field holds any value. *)
Record DAGContext : Type := {
  submit_timeout : value;
  get_timeout : value;
  teardown_timeout : value;
  buffer_size_bytes : value;
  asyncio_max_queue_size : value;
  max_buffered_results : value;
  max_inflight_executions : value;
  overlap_gpu_communication : value
}.

(** The names of the fields, for attribute access by name. *)
Inductive field : Type :=
  | F_submit_timeout
  | F_get_timeout
  | F_teardown_timeout
  | F_buffer_size_bytes
  | F_asyncio_max_queue_size
  | F_max_buffered_results
  | F_max_inflight_executions
  | F_overlap_gpu_communication.

#[global] Instance field_eq_dec : EqDecision field.
Proof. solve_decision. Defined.

Definition all_fields : list field :=
  [F_submit_timeout; F_get_timeout; F_teardown_timeout; F_buffer_size_bytes;
   F_asyncio_max_queue_size; F_max_buffered_results;
   F_max_inflight_executions; F_overlap_gpu_communication].

(** [getattr(o, f)] *)
Definition getattr (o : DAGContext) (f : field) : value :=
  match f with
  | F_submit_timeout => submit_timeout o
  | F_get_timeout => get_timeout o
  | F_teardown_timeout => teardown_timeout o
  | F_buffer_size_bytes => buffer_size_bytes o
  | F_asyncio_max_queue_size => asyncio_max_queue_size o
  | F_max_buffered_results => max_buffered_results o
  | F_max_inflight_executions => max_inflight_executions o
  | F_overlap_gpu_communication => overlap_gpu_communication o
  end.

(** [o.f = v]: the dataclass is not frozen and defines no [__setattr__],
    so the assignment stores [v] as it is. *)
Definition setattr (o : DAGContext) (f : field) (v : value) : DAGContext :=
  {| submit_timeout :=
       if decide (f = F_submit_timeout) then v else submit_timeout o;
     get_timeout := if decide (f = F_get_timeout) then v else get_timeout o;
     teardown_timeout :=
       if decide (f = F_teardown_timeout) then v else teardown_timeout o;
     buffer_size_bytes :=
       if decide (f = F_buffer_size_bytes) then v else buffer_size_bytes o;
     asyncio_max_queue_size :=
       if decide (f = F_asyncio_max_queue_size) then v
       else asyncio_max_queue_size o;
     max_buffered_results :=
       if decide (f = F_max_buffered_results) then v
       else max_buffered_results o;
     max_inflight_executions :=
       if decide (f = F_max_inflight_executions) then v
       else max_inflight_executions o;
     overlap_gpu_communication :=
       if decide (f = F_overlap_gpu_communication) then v
       else overlap_gpu_communication o |}.

(** Keyword arguments of a constructor call: the fields the caller gives. *)
Definition kwargs : Type := field -> option value.

Definition no_kwargs : kwargs := fun _ => None.

(** The [__init__] that [@dataclass] generates.  Its parameter defaults are
    the values the [DEFAULT_*] names had when the class body ran. *)
Definition DAGContext_init (c : constants) (kw : kwargs) : DAGContext :=
  {| submit_timeout :=
       default (VInt (DEFAULT_SUBMIT_TIMEOUT_S c)) (kw F_submit_timeout);
     get_timeout := default (VInt (DEFAULT_GET_TIMEOUT_S c)) (kw F_get_timeout);
     teardown_timeout :=
       default (VInt (DEFAULT_TEARDOWN_TIMEOUT_S c)) (kw F_teardown_timeout);
     buffer_size_bytes :=
       default (VInt (DEFAULT_BUFFER_SIZE_BYTES c)) (kw F_buffer_size_bytes);
     asyncio_max_queue_size :=
       default (VInt (DEFAULT_ASYNCIO_MAX_QUEUE_SIZE c))
         (kw F_asyncio_max_queue_size);
     max_buffered_results :=
       default (VInt (DEFAULT_MAX_BUFFERED_RESULTS c))
         (kw F_max_buffered_results);
     max_inflight_executions :=
       default (VInt (DEFAULT_MAX_INFLIGHT_EXECUTIONS c))
         (kw F_max_inflight_executions);
     overlap_gpu_communication :=
       default (VBool (DEFAULT_OVERLAP_GPU_COMMUNICATION c))
         (kw F_overlap_gpu_communication) |}.

(** ** The process *)

(** A reference to a [DAGContext] object: its index in the heap. *)
Abbreviation ref := nat.

(** What the module's behaviour depends on: the environment, the module
    globals bound at import, and the [DAGContext] objects created so far.
    [_default_context] is [None] or a reference to the singleton. *)
Record process : Type := {
  os_environ : environ;
  globals : constants;
  heap : list DAGContext;
  _default_context : option ref
}.

(** Importing the module in a process whose environment is [env]. *)
Definition import_module (env : environ) : result process :=
  c ← module_constants env;
  mret {| os_environ := env;
          globals := c;
          heap := [];
          _default_context := None |}.

(** [DAGContext(...)] with keyword arguments [kw]: a new object, which the
    caller alone refers to. *)
Definition DAGContext_new (kw : kwargs) (p : process) : ref * process :=
  (length (heap p),
   {| os_environ := os_environ p;
      globals := globals p;
      heap := heap p ++ [DAGContext_init (globals p) kw];
      _default_context := _default_context p |}).

(** [DAGContext.get_current()], called by a thread that finds
    [_context_lock] free and leaves it free. *)
Definition get_current (p : process) : ref * process :=
  match _default_context p with
  | None =>
      let '(r, p') := DAGContext_new no_kwargs p in
      (r, {| os_environ := os_environ p';
             globals := globals p';
             heap := heap p';
             _default_context := Some r |})
  | Some r => (r, p)
  end.

(** [r.f], with [None] when [r] refers to no object. *)
Definition read_field (p : process) (r : ref) (f : field) : option value :=
  o ← heap p !! r; Some (getattr o f).

(** [r.f = v], with [None] when [r] refers to no object. *)
Definition write_field (p : process) (r : ref) (f : field) (v : value)
  : option process :=
  o ← heap p !! r;
  Some {| os_environ := os_environ p;
          globals := globals p;
          heap := <[r := setattr o f v]> (heap p);
          _default_context := _default_context p |}.

(** [os.environ[k] = s] and [del os.environ[k]] *)
Definition set_environ (k s : string) (p : process) : process :=
  {| os_environ := <[k := s]> (os_environ p);
     globals := globals p;
     heap := heap p;
     _default_context := _default_context p |}.

Definition del_environ (k : string) (p : process) : process :=
  {| os_environ := delete k (os_environ p);
     globals := globals p;
     heap := heap p;
     _default_context := _default_context p |}.

(** What client code can do with the module once it is imported. *)
Inductive op : Type :=
  | GetCurrent
  | Construct (kw : kwargs)
  | Assign (r : ref) (f : field) (v : value)
  | SetEnv (k s : string)
  | DelEnv (k : string).

(** One operation.  Client code only holds references it was given, so an
    [Assign] through a reference to no object does not occur; it is
    modelled as doing nothing. *)
Definition exec (p : process) (o : op) : process :=
  match o with
  | GetCurrent => snd (get_current p)
  | Construct kw => snd (DAGContext_new kw p)
  | Assign r f v => default p (write_field p r f v)
  | SetEnv k s => set_environ k s p
  | DelEnv k => del_environ k p
  end.

Definition run (p : process) (os : list op) : process := foldl exec p os.

(** The two states of the singleton's life cycle. *)
Inductive lifecycle : Type :=
  | UNINITIALIZED
  | INITIALIZED.

Definition status (p : process) : lifecycle :=
  match _default_context p with
  | None => UNINITIALIZED
  | Some _ => INITIALIZED
  end.

(** The environment variable that overrides a field. *)
Definition env_key (f : field) : string :=
  match f with
  | F_submit_timeout => "RAY_CGRAPH_submit_timeout"
  | F_get_timeout => "RAY_CGRAPH_get_timeout"
  | F_teardown_timeout => "RAY_CGRAPH_teardown_timeout"
  | F_buffer_size_bytes => "RAY_CGRAPH_buffer_size_bytes"
  | F_asyncio_max_queue_size => "RAY_CGRAPH_asyncio_max_queue_size"
  | F_max_buffered_results => "RAY_CGRAPH_max_buffered_results"
  | F_max_inflight_executions => "RAY_CGRAPH_max_inflight_executions"
  | F_overlap_gpu_communication => "RAY_CGRAPH_overlap_gpu_communication"
  end.

(** The fields annotated [int]; the remaining one is annotated [bool]. *)
Definition is_int_field (f : field) : bool :=
  match f with
  | F_overlap_gpu_communication => false
  | _ => true
  end.

(** ** Threads

    Several threads inside [get_current] at once.  A thread is at one of
    the points below; one step of one thread is atomic, and a scheduler
    picks which thread steps next.  [_context_lock] is a [threading.Lock]:
    it is free or held, and acquiring it waits while it is held. *)

Module Threads.

(** The points of lines 101 to 105.  [Store tmp] holds the object that
    [DAGContext()] has just returned and that line 103 is about to bind
    to [_default_context].  The value a thread returns is what it read
    from [_default_context]: [None] or a reference. *)
Inductive pc : Type :=
  | Acquire
  | Test
  | Call
  | Store (tmp : ref)
  | Load
  | Release (ret : option ref)
  | Returned (ret : option ref).

Record config : Type := {
  proc : process;
  _context_lock : bool;
  threads : list pc
}.

Definition bind_default_context (p : process) (r : ref) : process :=
  {| os_environ := os_environ p;
     globals := globals p;
     heap := heap p;
     _default_context := Some r |}.

Definition at_pc (c : config) (i : nat) (k : pc) : config :=
  {| proc := proc c;
     _context_lock := _context_lock c;
     threads := <[i := k]> (threads c) |}.

(** One step of thread [i]; [None] when it cannot step: it waits for the
    lock, it has returned, or there is no such thread. *)
Definition step_thread (i : nat) (c : config) : option config :=
  k ← threads c !! i;
  match k with
  | Acquire =>
      if _context_lock c then None
      else Some {| proc := proc c;
                   _context_lock := true;
                   threads := <[i := Test]> (threads c) |}
  | Test =>
      match _default_context (proc c) with
      | None => Some (at_pc c i Call)
      | Some _ => Some (at_pc c i Load)
      end
  | Call =>
      let '(r, p') := DAGContext_new no_kwargs (proc c) in
      Some {| proc := p';
              _context_lock := _context_lock c;
              threads := <[i := Store r]> (threads c) |}
  | Store tmp =>
      Some {| proc := bind_default_context (proc c) tmp;
              _context_lock := _context_lock c;
              threads := <[i := Load]> (threads c) |}
  | Load => Some (at_pc c i (Release (_default_context (proc c))))
  | Release ret =>
      Some {| proc := proc c;
              _context_lock := false;
              threads := <[i := Returned ret]> (threads c) |}
  | Returned _ => None
  end.

(** [n] threads enter [get_current] in process [p]. *)
Definition spawn (p : process) (n : nat) : config :=
  {| proc := p; _context_lock := false; threads := replicate n Acquire |}.

(** A schedule names the thread to step next; a thread that cannot step
    when it is named leaves the configuration as it is. *)
Definition sched_step (c : config) (i : nat) : config :=
  default c (step_thread i c).

Definition run_threads (c : config) (schedule : list nat) : config :=
  foldl sched_step c schedule.

(** A thread is inside the [with] block. *)
Definition in_with (k : pc) : bool :=
  match k with
  | Acquire | Returned _ => false
  | _ => true
  end.

Definition has_returned (k : pc) : bool :=
  match k with
  | Returned _ => true
  | _ => false
  end.

(** The number of steps a thread at [k] can still take, at most. *)
Definition steps_left (k : pc) : nat :=
  match k with
  | Acquire => 6
  | Test => 5
  | Call => 4
  | Store _ => 3
  | Load => 2
  | Release _ => 1
  | Returned _ => 0
  end.

Definition weight (c : config) : nat :=
  foldr (fun k n => (steps_left k + n)%nat) 0%nat (threads c).

(** The process states of a first access that starts in [p0]: [p0]
    itself, then [constructed p0] once line 103 has called
    [DAGContext()], then [published p0] once it has bound the result. *)
Definition constructed (p0 : process) : process :=
  snd (DAGContext_new no_kwargs p0).

Definition published (p0 : process) : process :=
  bind_default_context (constructed p0) (length (heap p0)).

(** What the point a thread is at tells about the process state. *)
Definition pc_ok (p0 p : process) (k : pc) : Prop :=
  match k with
  | Acquire => True
  | Test => p = p0 \/ p = published p0
  | Call => p = p0
  | Store tmp => tmp = length (heap p0) /\ p = constructed p0
  | Load => p = published p0
  | Release ret | Returned ret =>
      ret = Some (length (heap p0)) /\ p = published p0
  end.

(** The lock is held exactly while one thread is inside the [with]
    block; while it is free, no construction is under way. *)
Definition lock_ok (p0 : process) (c : config) : Prop :=
  if _context_lock c
  then exists i k,
         threads c !! i = Some k /\ in_with k = true
         /\ forall j k', threads c !! j = Some k' ->
                         in_with k' = true -> j = i
  else (proc c = p0 \/ proc c = published p0)
       /\ forall i k, threads c !! i = Some k -> in_with k = false.

Definition inv (p0 : process) (c : config) : Prop :=
  (forall i k, threads c !! i = Some k -> pc_ok p0 (proc c) k)
  /\ lock_ok p0 c.

End Threads.

(** ** The conversions by field *)

(** The literal that line 11 to 33 pass to [os.environ.get] as fallback. *)
Definition default_literal (f : field) : value :=
  match f with
  | F_submit_timeout => VInt 10
  | F_get_timeout => VInt 10
  | F_teardown_timeout => VInt 30
  | F_buffer_size_bytes => VFloat float_1e6
  | F_asyncio_max_queue_size => VInt 0
  | F_max_buffered_results => VInt 1000
  | F_max_inflight_executions => VInt 10
  | F_overlap_gpu_communication => VInt 0
  end.

(** The conversion applied to what [os.environ.get] returns: [int] for the
    seven numeric fields, [bool] for the flag. *)
Definition convert (f : field) (x : value) : result value :=
  if is_int_field f
  then n ← py_int x; mret (VInt n)
  else mret (VBool (py_bool x)).

(** The values a default-constructed instance has when no override is
    set. *)
Definition compiled_defaults : DAGContext :=
  {| submit_timeout := VInt 10;
     get_timeout := VInt 10;
     teardown_timeout := VInt 30;
     buffer_size_bytes := VInt 1000000;
     asyncio_max_queue_size := VInt 0;
     max_buffered_results := VInt 1000;
     max_inflight_executions := VInt 10;
     overlap_gpu_communication := VBool false |}.

(** Operations that only change the environment. *)
Definition is_env_op (o : op) : bool :=
  match o with
  | SetEnv _ _ | DelEnv _ => true
  | _ => false
  end.

(** A process state is well formed when the singleton reference, if any,
    refers to an object. *)
Definition wf (p : process) : Prop :=
  forall r, _default_context p = Some r -> (r < length (heap p))%nat.

(** ** Notions used to state further properties *)

(** Every character of a string satisfies [P]. *)
Fixpoint all_chars (P : ascii -> bool) (s : string) : bool :=
  match s with
  | EmptyString => true
  | String c rest => P c && all_chars P rest
  end.

Definition is_sign (c : ascii) : bool :=
  let n := nat_of_ascii c in (n =? 43)%nat || (n =? 45)%nat.

(** The characters an [int] literal in base 10 is made of. *)
Definition int_literal_char (c : ascii) : bool :=
  PyInt.is_space c || is_sign c || PyInt.is_underscore c
  || bool_decide (is_Some (PyInt.digit_value c)).

(** The operation is an assignment through the reference [r]. *)
Definition assigns_to (r : ref) (o : op) : bool :=
  match o with
  | Assign r' _ _ => bool_decide (r' = r)
  | _ => false
  end.

(** The lock discipline alone: the lock is held exactly while one thread
    is inside the [with] block. *)
Definition mutex (c : Threads.config) : Prop :=
  if Threads._context_lock c
  then exists i k,
         Threads.threads c !! i = Some k /\ Threads.in_with k = true
         /\ forall j k', Threads.threads c !! j = Some k' ->
                         Threads.in_with k' = true -> j = i
  else forall i k, Threads.threads c !! i = Some k ->
                   Threads.in_with k = false.

(** Threads in a process whose singleton is [r] already: none of them is
    at the construction, and what they return is [r]. *)
Definition reads_singleton (r : ref) (k : Threads.pc) : Prop :=
  match k with
  | Threads.Acquire | Threads.Test | Threads.Load => True
  | Threads.Call | Threads.Store _ => False
  | Threads.Release ret | Threads.Returned ret => ret = Some r
  end.

(** * Properties *)

(** ** Conversions *)

Example int_of_strings :
  PyInt.of_string "not_a_number" = None
  /\ PyInt.of_string "" = None
  /\ PyInt.of_string "1e6" = None
  /\ PyInt.of_string "1__0" = None
  /\ PyInt.of_string "12 3" = None
  /\ PyInt.of_string " 12 " = Some 12
  /\ PyInt.of_string "-1_000" = Some (-1000)
  /\ PyInt.of_string "+007" = Some 7.
Proof. repeat split; reflexivity. Qed.

Example int_of_float_1e6 : py_int (VFloat float_1e6) = Ok 1000000.
Proof. reflexivity. Qed.

Lemma py_int_environ_get env k d n :
  py_int (environ_get env k d) = Ok n ->
  match env !! k with
  | Some s => PyInt.of_string s = Some n
  | None => py_int d = Ok n
  end.
Proof.
  unfold environ_get. destruct (env !! k) as [s|]; [|done].
  simpl. destruct (PyInt.of_string s); [|done]. by intros [= ->].
Qed.

Lemma py_int_environ_get_error env k d s :
  env !! k = Some s -> PyInt.of_string s = None ->
  py_int (environ_get env k d) = Raise ValueError.
Proof. unfold environ_get. intros -> H. simpl. by rewrite H. Qed.

(** With an [int] or finite [float] fallback, the conversion of an
    environment value returns or raises [ValueError]. *)
Lemma py_int_environ_get_cases env k d m :
  py_int d = Ok m ->
  (exists n, py_int (environ_get env k d) = Ok n)
  \/ py_int (environ_get env k d) = Raise ValueError.
Proof.
  intros Hd. unfold environ_get. destruct (env !! k) as [s|]; [|eauto].
  simpl. destruct (PyInt.of_string s); eauto.
Qed.

Lemma module_constants_inv env c :
  module_constants env = Ok c ->
  py_int (environ_get env "RAY_CGRAPH_submit_timeout" (VInt 10))
    = Ok (DEFAULT_SUBMIT_TIMEOUT_S c)
  /\ py_int (environ_get env "RAY_CGRAPH_get_timeout" (VInt 10))
    = Ok (DEFAULT_GET_TIMEOUT_S c)
  /\ py_int (environ_get env "RAY_CGRAPH_teardown_timeout" (VInt 30))
    = Ok (DEFAULT_TEARDOWN_TIMEOUT_S c)
  /\ py_int (environ_get env "RAY_CGRAPH_buffer_size_bytes" (VFloat float_1e6))
    = Ok (DEFAULT_BUFFER_SIZE_BYTES c)
  /\ py_int (environ_get env "RAY_CGRAPH_asyncio_max_queue_size" (VInt 0))
    = Ok (DEFAULT_ASYNCIO_MAX_QUEUE_SIZE c)
  /\ py_int (environ_get env "RAY_CGRAPH_max_buffered_results" (VInt 1000))
    = Ok (DEFAULT_MAX_BUFFERED_RESULTS c)
  /\ py_int (environ_get env "RAY_CGRAPH_max_inflight_executions" (VInt 10))
    = Ok (DEFAULT_MAX_INFLIGHT_EXECUTIONS c)
  /\ py_bool (environ_get env "RAY_CGRAPH_overlap_gpu_communication" (VInt 0))
    = DEFAULT_OVERLAP_GPU_COMMUNICATION c.
Proof.
  unfold module_constants. intros H.
  repeat match type of H with
         | context [mbind _ ?m] =>
             destruct m eqn:?; cbn [mbind result_bind] in H; [|discriminate H]
         end.
  cbn in H. injection H as <-. cbn. by repeat split.
Qed.

(** The eight assignments of the module, read as one table. *)
Lemma constants_table env c :
  module_constants env = Ok c ->
  forall f,
    convert f (environ_get env (env_key f) (default_literal f))
    = Ok (getattr (DAGContext_init c no_kwargs) f).
Proof.
  intros H f. apply module_constants_inv in H.
  destruct H as (H1 & H2 & H3 & H4 & H5 & H6 & H7 & H8).
  destruct f; unfold convert; cbn [is_int_field env_key default_literal];
    cbn [getattr DAGContext_init no_kwargs default
         submit_timeout get_timeout teardown_timeout buffer_size_bytes
         asyncio_max_queue_size max_buffered_results max_inflight_executions
         overlap_gpu_communication];
    first [ by rewrite H1 | by rewrite H2 | by rewrite H3 | by rewrite H4
          | by rewrite H5 | by rewrite H6 | by rewrite H7 | by rewrite H8 ].
Qed.

(** ** The process: what the operations keep *)

Lemma import_module_inv env p :
  import_module env = Ok p ->
  exists c, module_constants env = Ok c
    /\ p = {| os_environ := env; globals := c; heap := [];
              _default_context := None |}.
Proof.
  unfold import_module. destruct (module_constants env) as [c|e]; [|done].
  cbn. intros [= <-]. eauto.
Qed.

Lemma get_current_initialized p r :
  _default_context p = Some r -> get_current p = (r, p).
Proof. unfold get_current. by intros ->. Qed.

Lemma get_current_uninitialized p :
  _default_context p = None ->
  get_current p =
    (length (heap p),
     {| os_environ := os_environ p;
        globals := globals p;
        heap := heap p ++ [DAGContext_init (globals p) no_kwargs];
        _default_context := Some (length (heap p)) |}).
Proof. unfold get_current. by intros ->. Qed.

Lemma get_current_uninitialized_or_not p :
  get_current p =
    match _default_context p with
    | Some r => (r, p)
    | None =>
        (length (heap p),
         {| os_environ := os_environ p;
            globals := globals p;
            heap := heap p ++ [DAGContext_init (globals p) no_kwargs];
            _default_context := Some (length (heap p)) |})
    end.
Proof. unfold get_current. by destruct (_default_context p). Qed.

Lemma write_field_inv p r f v p' :
  write_field p r f v = Some p' ->
  exists o, heap p !! r = Some o
    /\ p' = {| os_environ := os_environ p; globals := globals p;
               heap := <[r := setattr o f v]> (heap p);
               _default_context := _default_context p |}.
Proof.
  unfold write_field. destruct (heap p !! r) as [o|]; [|done].
  cbn. intros [= <-]. eauto.
Qed.

Lemma exec_globals p o : globals (exec p o) = globals p.
Proof.
  destruct o as [|kw|r f v|k s|k]; cbn; try done.
  - unfold get_current. by destruct (_default_context p).
  - destruct (write_field p r f v) as [p'|] eqn:E; [|done].
    apply write_field_inv in E as (o & _ & ->). done.
Qed.

Lemma run_globals p os : globals (run p os) = globals p.
Proof.
  unfold run. revert p. induction os as [|o os IH]; intros p; [done|].
  cbn. by rewrite IH, exec_globals.
Qed.

Lemma exec_wf p o : wf p -> wf (exec p o).
Proof.
  intros Hwf. destruct o as [|kw|r f v|k s|k]; cbn; try done.
  - rewrite get_current_uninitialized_or_not.
    destruct (_default_context p) eqn:E; [done|].
    unfold wf. cbn. intros r [= <-]. rewrite length_app. cbn. lia.
  - unfold wf. cbn. intros r E%Hwf. rewrite length_app. lia.
  - destruct (write_field p r f v) as [p'|] eqn:E; [|done].
    apply write_field_inv in E as (o & _ & ->).
    unfold wf. cbn. intros r'. rewrite length_insert. apply Hwf.
Qed.

Lemma run_wf p os : wf p -> wf (run p os).
Proof.
  unfold run. revert p. induction os as [|o os IH]; intros p Hwf; [done|].
  cbn. by apply IH, exec_wf.
Qed.

Lemma import_module_wf env p : import_module env = Ok p -> wf p.
Proof. intros (c & _ & ->)%import_module_inv. by intros r. Qed.

(** Environment operations touch nothing but [os.environ]. *)
Lemma run_env_ops p os :
  forallb is_env_op os = true ->
  globals (run p os) = globals p
  /\ heap (run p os) = heap p
  /\ _default_context (run p os) = _default_context p.
Proof.
  unfold run. revert p. induction os as [|o os IH]; intros p H; [done|].
  cbn in H. apply andb_prop in H as [Ho Hos].
  cbn. destruct (IH (exec p o) Hos) as (-> & -> & ->).
  by destruct o.
Qed.

(** Once the singleton exists, no operation rebinds [_default_context]. *)
Lemma exec_default_context_some p o r :
  _default_context p = Some r -> _default_context (exec p o) = Some r.
Proof.
  intros H. destruct o as [|kw|r' f v|k s|k]; cbn; try done.
  - by rewrite (get_current_initialized p r).
  - destruct (write_field p r' f v) as [p'|] eqn:E; [|done].
    apply write_field_inv in E as (o & _ & ->). done.
Qed.

(** Only [get_current] binds it. *)
Lemma exec_default_context_other p o :
  o <> GetCurrent -> _default_context (exec p o) = _default_context p.
Proof.
  intros H. destruct o as [|kw|r' f v|k s|k]; cbn; try done.
  destruct (write_field p r' f v) as [p'|] eqn:E; [|done].
  apply write_field_inv in E as (o & _ & ->). done.
Qed.

Lemma getattr_setattr_eq o f v : getattr (setattr o f v) f = v.
Proof. by destruct f. Qed.

Lemma getattr_setattr_ne o f g v :
  f <> g -> getattr (setattr o f v) g = getattr o g.
Proof. intros H. by destruct f, g. Qed.

(** Assigning through a reference to an object succeeds, and the object
    then holds the value. *)
Lemma write_then_read p r f v :
  (r < length (heap p))%nat ->
  exists p', write_field p r f v = Some p'
    /\ read_field p' r f = Some v
    /\ _default_context p' = _default_context p
    /\ length (heap p') = length (heap p)
    /\ (forall g, f <> g -> read_field p' r g = read_field p r g)
    /\ (forall r' g, r' <> r -> read_field p' r' g = read_field p r' g).
Proof.
  intros Hr. destruct (lookup_lt_is_Some_2 (heap p) r Hr) as [o Ho].
  unfold write_field. rewrite Ho. cbn. eexists. split; [done|].
  unfold read_field. cbn. rewrite list_lookup_insert_eq by done.
  cbn. rewrite getattr_setattr_eq, length_insert, Ho.
  repeat split; try done.
  - intros g Hg. cbn. by rewrite getattr_setattr_ne.
  - intros r' g Hr'. by rewrite list_lookup_insert_ne.
Qed.

(** ** Defaults and overrides *)

(** One conversion of [module_constants], from the front of the chain:
    either it returns and the chain goes on, or it raises [ValueError]. *)
Ltac step_conversion :=
  match goal with
  | |- context [mbind _ (py_int (environ_get ?env ?k ?d))] =>
      destruct (py_int_environ_get_cases env k d _ eq_refl) as [[? ->] | ->];
      cbn [mbind result_bind]; [|reflexivity]
  end.

(** The first access after an import: the instance is built from the
    constants bound at import, whatever the environment has become. *)
Lemma first_access env p0 es :
  import_module env = Ok p0 ->
  forallb is_env_op es = true ->
  exists r p1,
    get_current (run p0 es) = (r, p1)
    /\ forall f, exists v,
        convert f (environ_get env (env_key f) (default_literal f)) = Ok v
        /\ read_field p1 r f = Some v.
Proof.
  intros Himp H1.
  apply import_module_inv in Himp as (c & Hc & ->).
  destruct (run_env_ops
              {| os_environ := env; globals := c; heap := [];
                 _default_context := None |} es H1) as (Hg & Hh & Hd).
  cbn in Hg, Hh, Hd.
  rewrite (get_current_uninitialized _ Hd), Hg, Hh.
  do 2 eexists. split; [reflexivity|].
  intros f. eexists. split; [exact (constants_table env c Hc f)|done].
Qed.

(** When no variable is set at all, the import succeeds and the first
    instance is the record of the compiled-in defaults. *)
Lemma all_defaults_when_nothing_is_set (env : environ) :
  (forall f, env !! env_key f = None) ->
  exists p r p',
    import_module env = Ok p
    /\ get_current p = (r, p')
    /\ heap p' !! r = Some compiled_defaults.
Proof.
  intros H.
  pose proof (H F_submit_timeout) as H1. pose proof (H F_get_timeout) as H2.
  pose proof (H F_teardown_timeout) as H3.
  pose proof (H F_buffer_size_bytes) as H4.
  pose proof (H F_asyncio_max_queue_size) as H5.
  pose proof (H F_max_buffered_results) as H6.
  pose proof (H F_max_inflight_executions) as H7.
  pose proof (H F_overlap_gpu_communication) as H8.
  cbn [env_key] in *.
  unfold import_module, module_constants, environ_get.
  rewrite H1, H2, H3, H4, H5, H6, H7, H8.
  do 3 eexists. split; [reflexivity|]. split; reflexivity.
Qed.

(** C3. For every field whose override is not set, whatever the other
    variables hold, the instance that the first [get_current()] returns
    after a successful import has the field's compiled-in default:
    10, 10, 30, 1000000, 0, 1000, 10 and [False]. *)
Theorem C3_defaults_without_overrides
    (env : environ) (p0 : process) (f : field) :
  import_module env = Ok p0 ->
  env !! env_key f = None ->
  exists r p1,
    get_current p0 = (r, p1)
    /\ read_field p1 r f
       = Some match f with
              | F_submit_timeout => VInt 10
              | F_get_timeout => VInt 10
              | F_teardown_timeout => VInt 30
              | F_buffer_size_bytes => VInt 1000000
              | F_asyncio_max_queue_size => VInt 0
              | F_max_buffered_results => VInt 1000
              | F_max_inflight_executions => VInt 10
              | F_overlap_gpu_communication => VBool false
              end.
Proof.
  intros Himp Hf.
  destruct (first_access env p0 [] Himp eq_refl) as (r & p1 & Hg & Hv).
  exists r, p1. split; [exact Hg|].
  destruct (Hv f) as (v & Hc & ->).
  unfold environ_get in Hc. rewrite Hf in Hc.
  destruct f; vm_compute in Hc; by injection Hc as <-.
Qed.

Lemma C3_defaults_without_overrides_witness :
  exists p0 r p1,
    import_module {[ "RAY_CGRAPH_get_timeout" := "25";
                     "RAY_CGRAPH_overlap_gpu_communication" := "1" ]} = Ok p0
    /\ get_current p0 = (r, p1)
    /\ read_field p1 r F_buffer_size_bytes = Some (VInt 1000000)
    /\ read_field p1 r F_get_timeout = Some (VInt 25).
Proof.
  destruct (import_module
              {[ "RAY_CGRAPH_get_timeout" := "25";
                 "RAY_CGRAPH_overlap_gpu_communication" := "1" ]})
    as [p0|e] eqn:Himp; [|vm_compute in Himp; discriminate Himp].
  destruct (C3_defaults_without_overrides
              {[ "RAY_CGRAPH_get_timeout" := "25";
                 "RAY_CGRAPH_overlap_gpu_communication" := "1" ]}
              p0 F_buffer_size_bytes Himp eq_refl)
    as (r & p1 & Hg & Hr).
  exists p0, r, p1. split; [done|]. split; [done|]. split; [done|].
  injection Himp as <-. vm_compute in Hg. injection Hg as <- <-.
  reflexivity.
Defined.

(** C1, as the code has it.  When the override of an [int] field holds a
    string that [int()] refuses, importing the module raises [ValueError]:
    no [DAGContext] class, no [get_current] and no singleton come to
    exist, so no field takes its compiled-in default. *)
Theorem C1_unparsable_override_fails_import
    (env : environ) (f : field) (s : string) :
  is_int_field f = true ->
  env !! env_key f = Some s ->
  PyInt.of_string s = None ->
  import_module env = Raise ValueError.
Proof.
  intros Hint Hk Hs. unfold import_module, module_constants.
  destruct f; try discriminate Hint; cbn [env_key] in Hk;
    repeat first
      [ rewrite (py_int_environ_get_error env _ _ s Hk Hs); reflexivity
      | step_conversion ].
Qed.

Lemma C1_unparsable_override_fails_import_witness :
  import_module {[ "RAY_CGRAPH_teardown_timeout" := "not_a_number" ]}
  = Raise ValueError.
Proof.
  apply (C1_unparsable_override_fails_import
           {[ "RAY_CGRAPH_teardown_timeout" := "not_a_number" ]}
           F_teardown_timeout "not_a_number");
    vm_compute; reflexivity.
Defined.

(** C1 as stated fails.  With the override in place when the process
    starts, what fails is the import, with [ValueError] and not with an
    exception named ConfigurationError.  With the override put in place
    after the import and before the first access, the first
    [get_current()] returns, and [submit_timeout] is the default 10. *)
Lemma C1_counterexample :
  import_module {[ "RAY_CGRAPH_submit_timeout" := "not_a_number" ]}
    = Raise "ValueError"
  /\ "ValueError" <> "ConfigurationError"
  /\ exists p0 r p1,
      import_module ∅ = Ok p0
      /\ PyInt.of_string "not_a_number" = None
      /\ os_environ (set_environ "RAY_CGRAPH_submit_timeout" "not_a_number" p0)
           !! env_key F_submit_timeout = Some "not_a_number"
      /\ status (set_environ "RAY_CGRAPH_submit_timeout" "not_a_number" p0)
         = UNINITIALIZED
      /\ get_current
           (set_environ "RAY_CGRAPH_submit_timeout" "not_a_number" p0)
         = (r, p1)
      /\ read_field p1 r F_submit_timeout = Some (VInt 10).
Proof.
  split; [vm_compute; reflexivity|]. split; [discriminate|].
  do 3 eexists. repeat split; vm_compute; reflexivity.
Qed.

(** C2, as the code has it.  The overrides are resolved once, when the
    module is imported.  When the import succeeds, every field whose
    override was set at that time has the converted override as its value
    in the instance the first [get_current()] returns.  Changes of the
    environment after the import, before or after the singleton exists,
    change neither the singleton nor its fields; a field whose override
    was not set at that time keeps its compiled-in default even when the
    variable is set before the first access. *)
Theorem C2_overrides_resolved_at_import
    (env : environ) (p0 : process) (es1 es2 : list op) :
  import_module env = Ok p0 ->
  forallb is_env_op es1 = true ->
  forallb is_env_op es2 = true ->
  exists r p1,
    get_current (run p0 es1) = (r, p1)
    /\ get_current (run p1 es2) = (r, run p1 es2)
    /\ heap (run p1 es2) = heap p1
    /\ (forall f s,
        env !! env_key f = Some s ->
        exists v,
          convert f (VStr s) = Ok v
          /\ read_field p1 r f = Some v
          /\ read_field (run p1 es2) r f = Some v)
    /\ (forall f,
        env !! env_key f = None ->
        read_field p1 r f = Some (getattr compiled_defaults f)
        /\ read_field (run p1 es2) r f
           = Some (getattr compiled_defaults f)).
Proof.
  intros Himp H1 H2.
  apply import_module_inv in Himp as (c & Hc & ->).
  destruct (run_env_ops
              {| os_environ := env; globals := c; heap := [];
                 _default_context := None |} es1 H1) as (Hg & Hh & Hd).
  cbn in Hg, Hh, Hd.
  rewrite (get_current_uninitialized _ Hd), Hg, Hh.
  do 2 eexists. split; [reflexivity|].
  match goal with |- context [run ?p es2] => set (p1 := p) end.
  destruct (run_env_ops p1 es2 H2) as (Hg2 & Hh2 & Hd2).
  split; [by apply get_current_initialized|]. split; [done|].
  split.
  - intros f s Hs. pose proof (constants_table env c Hc f) as Ht.
    unfold environ_get in Ht. rewrite Hs in Ht.
    eexists. split; [exact Ht|].
    unfold read_field. rewrite Hh2. done.
  - intros f Hf. pose proof (constants_table env c Hc f) as Ht.
    unfold environ_get in Ht. rewrite Hf in Ht.
    assert (getattr (DAGContext_init c no_kwargs) f
            = getattr compiled_defaults f) as Hdef.
    { destruct f; vm_compute in Ht |- *; congruence. }
    unfold read_field. rewrite Hh2. cbn. by rewrite Hdef.
Qed.

Lemma C2_overrides_resolved_at_import_witness :
  exists p0 r p1,
    import_module {[ "RAY_CGRAPH_get_timeout" := "25" ]} = Ok p0
    /\ get_current (run p0 [SetEnv "RAY_CGRAPH_get_timeout" "7"]) = (r, p1)
    /\ read_field p1 r F_get_timeout = Some (VInt 25)
    /\ read_field (run p1 [DelEnv "RAY_CGRAPH_get_timeout"; SetEnv "A" "B"])
         r F_get_timeout = Some (VInt 25).
Proof.
  destruct (import_module {[ "RAY_CGRAPH_get_timeout" := "25" ]})
    as [p0|e] eqn:Himp; [|vm_compute in Himp; discriminate Himp].
  destruct (C2_overrides_resolved_at_import
              {[ "RAY_CGRAPH_get_timeout" := "25" ]} p0
              [SetEnv "RAY_CGRAPH_get_timeout" "7"]
              [DelEnv "RAY_CGRAPH_get_timeout"; SetEnv "A" "B"]
              Himp eq_refl eq_refl) as (r & p1 & Hg & _ & _ & Hf & _).
  destruct (Hf F_get_timeout "25" eq_refl) as (v & Hv & Hr1 & Hr2).
  vm_compute in Hv. injection Hv as <-.
  exists p0, r, p1. done.
Defined.

(** C2 as stated fails: an override set after the import and before the
    first access is valid and present "before first access", and the
    field still has the compiled-in default. *)
Lemma C2_counterexample :
  exists p0 r p1,
    import_module ∅ = Ok p0
    /\ os_environ (set_environ "RAY_CGRAPH_submit_timeout" "20" p0)
         !! env_key F_submit_timeout = Some "20"
    /\ convert F_submit_timeout (VStr "20") = Ok (VInt 20)
    /\ status (set_environ "RAY_CGRAPH_submit_timeout" "20" p0)
       = UNINITIALIZED
    /\ get_current (set_environ "RAY_CGRAPH_submit_timeout" "20" p0)
       = (r, p1)
    /\ read_field p1 r F_submit_timeout = Some (VInt 10)
    /\ read_field p1 r F_submit_timeout <> Some (VInt 20).
Proof.
  do 3 eexists. repeat split; try (vm_compute; reflexivity).
  vm_compute. discriminate.
Qed.

(** C5. When the import succeeds, the override of
    [overlap_gpu_communication] is converted with [bool]: the field is
    [True] exactly when the string is true in Python's sense, that is, not
    empty.  The override of each other field is converted with [int]. *)
Theorem C5_override_conversions
    (env : environ) (p0 : process) (f : field) (s : string) :
  import_module env = Ok p0 ->
  env !! env_key f = Some s ->
  exists r p1,
    get_current p0 = (r, p1)
    /\ if is_int_field f
       then exists n, PyInt.of_string s = Some n
                      /\ read_field p1 r f = Some (VInt n)
       else exists b, read_field p1 r f = Some (VBool b)
                      /\ b = py_bool (VStr s)
                      /\ (b = true <-> s <> "")
                      /\ (b = false <-> s = "").
Proof.
  intros Himp Hs.
  destruct (first_access env p0 [] Himp eq_refl) as (r & p1 & Hg & Hf).
  exists r, p1. split; [done|].
  destruct (Hf f) as (v & Hv & Hr).
  unfold environ_get in Hv. rewrite Hs in Hv.
  unfold convert in Hv. destruct (is_int_field f).
  - cbn in Hv. destruct (PyInt.of_string s) as [n|]; [|done].
    cbn in Hv. injection Hv as <-. eauto.
  - cbn in Hv. injection Hv as <-. eexists. split; [done|].
    split; [done|]. destruct s; cbn; split; split; done.
Qed.

Lemma C5_override_conversions_witness :
  exists p0 r p1,
    import_module {[ "RAY_CGRAPH_overlap_gpu_communication" := "0" ]} = Ok p0
    /\ get_current p0 = (r, p1)
    /\ read_field p1 r F_overlap_gpu_communication = Some (VBool true).
Proof.
  destruct (import_module {[ "RAY_CGRAPH_overlap_gpu_communication" := "0" ]})
    as [p0|e] eqn:Himp; [|vm_compute in Himp; discriminate Himp].
  destruct (C5_override_conversions
              {[ "RAY_CGRAPH_overlap_gpu_communication" := "0" ]} p0
              F_overlap_gpu_communication "0" Himp eq_refl)
    as (r & p1 & Hg & b & Hr & Hb & _).
  cbn in Hb. subst b. exists p0, r, p1. done.
Defined.

(** The strings "0" and "false" are not empty, so they switch the flag
    on; only the empty string leaves it off. *)
Example overlap_flag_of_strings :
  py_bool (VStr "0") = true
  /\ py_bool (VStr "false") = true
  /\ py_bool (VStr "1") = true
  /\ py_bool (VStr "") = false.
Proof. done. Qed.

(** ** The singleton *)

(** C4. Two calls of [get_current()] with no reset between them return
    the same reference, so an assignment through the first is read through
    the second, whether the second call is made before or after the
    assignment.  The docstring's example is the case
    [buffer_size_bytes = 500]. *)
Theorem C4_same_instance
    (env : environ) (p0 : process) (os : list op) :
  import_module env = Ok p0 ->
  exists r p1,
    get_current (run p0 os) = (r, p1)
    /\ get_current p1 = (r, p1)
    /\ (forall f v, exists p2,
          write_field p1 r f v = Some p2
          /\ get_current p2 = (r, p2)
          /\ read_field p2 r f = Some v)
    /\ exists p2,
        write_field p1 r F_buffer_size_bytes (VInt 500) = Some p2
        /\ read_field p2 (fst (get_current p2)) F_buffer_size_bytes
           = Some (VInt 500).
Proof.
  intros Himp.
  pose proof (run_wf p0 os (import_module_wf env p0 Himp)) as Hwf.
  pose proof (exec_wf _ GetCurrent Hwf) as Hwf1. cbn in Hwf1.
  assert (exists r, _default_context (snd (get_current (run p0 os))) = Some r
                    /\ fst (get_current (run p0 os)) = r) as (r & Hd & Hr).
  { rewrite get_current_uninitialized_or_not.
    destruct (_default_context (run p0 os)) eqn:E; cbn; eauto. }
  destruct (get_current (run p0 os)) as [r' p1]. cbn in *. subst r'.
  exists r, p1. split; [done|].
  split; [by apply get_current_initialized|].
  assert (forall f v, exists p2,
            write_field p1 r f v = Some p2
            /\ get_current p2 = (r, p2)
            /\ read_field p2 r f = Some v) as Hall.
  { intros f v.
    destruct (write_then_read p1 r f v (Hwf1 r Hd))
      as (p2 & Hw & Hrd & Hd2 & _).
    exists p2. split; [done|]. split; [|done].
    apply get_current_initialized. by rewrite Hd2. }
  split; [exact Hall|].
  destruct (Hall F_buffer_size_bytes (VInt 500)) as (p2 & Hw & Hg & Hrd).
  exists p2. by rewrite Hg.
Qed.

Lemma C4_same_instance_witness :
  exists p0 r p1 p2,
    import_module ∅ = Ok p0
    /\ get_current (run p0 [Construct no_kwargs]) = (r, p1)
    /\ get_current p1 = (r, p1)
    /\ write_field p1 r F_buffer_size_bytes (VInt 500) = Some p2
    /\ read_field p2 (fst (get_current p2)) F_buffer_size_bytes
       = Some (VInt 500).
Proof.
  destruct (import_module ∅) as [p0|e] eqn:Himp;
    [|vm_compute in Himp; discriminate Himp].
  destruct (C4_same_instance ∅ p0 [Construct no_kwargs] Himp)
    as (r & p1 & Hg & Hg' & _ & p2 & Hw & Hrd).
  exists p0, r, p1, p2. done.
Defined.

(** C8. An assignment to a field of the instance that [get_current()]
    returns stores the value as it is, whatever the value: nothing is
    validated and nothing raises.  Reading the field gives the value back
    and the other fields keep theirs; a negative timeout is stored like
    any other number. *)
Theorem C8_assignment_unvalidated
    (env : environ) (p0 : process) (os : list op) (f : field) (v : value) :
  import_module env = Ok p0 ->
  exists r p1 p2,
    get_current (run p0 os) = (r, p1)
    /\ write_field p1 r f v = Some p2
    /\ read_field p2 r f = Some v
    /\ (forall g, f <> g -> read_field p2 r g = read_field p1 r g)
    /\ exists p3,
        write_field p2 r F_submit_timeout (VInt (-5)) = Some p3
        /\ read_field p3 r F_submit_timeout = Some (VInt (-5)).
Proof.
  intros Himp.
  pose proof (run_wf p0 os (import_module_wf env p0 Himp)) as Hwf.
  pose proof (exec_wf _ GetCurrent Hwf) as Hwf1. cbn in Hwf1.
  assert (exists r, _default_context (snd (get_current (run p0 os))) = Some r
                    /\ fst (get_current (run p0 os)) = r) as (r & Hd & Hr).
  { rewrite get_current_uninitialized_or_not.
    destruct (_default_context (run p0 os)) eqn:E; cbn; eauto. }
  destruct (get_current (run p0 os)) as [r' p1]. cbn in *. subst r'.
  destruct (write_then_read p1 r f v (Hwf1 r Hd))
    as (p2 & Hw & Hrd & Hd2 & Hlen & Hother & _).
  assert (r < length (heap p2))%nat as Hr2.
  { rewrite Hlen. by apply Hwf1. }
  destruct (write_then_read p2 r F_submit_timeout (VInt (-5)) Hr2)
    as (p3 & Hw3 & Hrd3 & _).
  exists r, p1, p2. repeat split; try done. by exists p3.
Qed.

Lemma C8_assignment_unvalidated_witness :
  exists p0 r p1 p2,
    import_module ∅ = Ok p0
    /\ get_current (run p0 []) = (r, p1)
    /\ write_field p1 r F_teardown_timeout (VInt (-30)) = Some p2
    /\ read_field p2 r F_teardown_timeout = Some (VInt (-30)).
Proof.
  destruct (import_module ∅) as [p0|e] eqn:Himp;
    [|vm_compute in Himp; discriminate Himp].
  destruct (C8_assignment_unvalidated ∅ p0 [] F_teardown_timeout
              (VInt (-30)) Himp)
    as (r & p1 & p2 & Hg & Hw & Hrd & _).
  exists p0, r, p1, p2. done.
Defined.

(** C9. The call that finds no singleton creates it: it adds one
    default-constructed object to the heap and binds [_default_context]
    to it, leaving the environment and the module constants as they were.
    A call that finds the singleton returns it and changes nothing, and so
    does any number of further calls. *)
Theorem C9_later_calls_are_reads (p : process) :
  (forall r, _default_context p = Some r -> get_current p = (r, p))
  /\ (_default_context p = None ->
      exists r p1,
        get_current p = (r, p1)
        /\ p1 <> p
        /\ r = length (heap p)
        /\ heap p1 = heap p ++ [DAGContext_init (globals p) no_kwargs]
        /\ _default_context p1 = Some r
        /\ os_environ p1 = os_environ p
        /\ globals p1 = globals p)
  /\ forall n,
      get_current (run (snd (get_current p)) (replicate n GetCurrent))
      = (fst (get_current p), snd (get_current p)).
Proof.
  split; [apply get_current_initialized|]. split.
  - intros H. rewrite (get_current_uninitialized p H).
    do 2 eexists. split; [reflexivity|]. repeat split.
    intros E. apply (f_equal _default_context) in E. cbn in E. congruence.
  - assert (exists r, _default_context (snd (get_current p)) = Some r
                      /\ fst (get_current p) = r) as (r & Hd & ->).
    { rewrite get_current_uninitialized_or_not.
      destruct (_default_context p) eqn:E; cbn; eauto. }
    generalize dependent (snd (get_current p)). intros p1 Hd n.
    assert (run p1 (replicate n GetCurrent) = p1) as ->.
    { induction n as [|n IH]; [done|]. unfold run in *. cbn.
      by rewrite (get_current_initialized p1 r Hd). }
    by apply get_current_initialized.
Qed.

(** C10. [DAGContext(...)] called directly makes a separate object.  It
    does not rebind [_default_context], it is not the singleton, and it
    changes no field of any other object.  A later [get_current()]
    returns the singleton as it was, or, when there is none yet, a new
    default-constructed object that is not the one built directly. *)
Theorem C10_direct_construction_is_separate
    (env : environ) (p0 : process) (os : list op) (kw : kwargs) :
  import_module env = Ok p0 ->
  exists r p',
    DAGContext_new kw (run p0 os) = (r, p')
    /\ heap p' !! r = Some (DAGContext_init (globals p0) kw)
    /\ _default_context p' = _default_context (run p0 os)
    /\ _default_context p' <> Some r
    /\ (forall a, a <> r -> heap p' !! a = heap (run p0 os) !! a)
    /\ match _default_context (run p0 os) with
       | Some s =>
           get_current p' = (s, p')
           /\ get_current (run p0 os) = (s, run p0 os)
           /\ forall f, read_field p' s f = read_field (run p0 os) s f
       | None =>
           exists s p'',
             get_current p' = (s, p'')
             /\ s <> r
             /\ heap p'' !! s = Some (DAGContext_init (globals p0) no_kwargs)
             /\ heap p'' !! r = Some (DAGContext_init (globals p0) kw)
       end.
Proof.
  intros Himp.
  pose proof (run_wf p0 os (import_module_wf env p0 Himp)) as Hwf.
  pose proof (run_globals p0 os) as Hg.
  generalize dependent (run p0 os). intros p Hwf Hg.
  exists (length (heap p)). eexists. split; [reflexivity|]. cbn.
  rewrite Hg.
  assert (forall a, a <> length (heap p) ->
            (heap p ++ [DAGContext_init (globals p0) kw]) !! a = heap p !! a)
    as Hframe.
  { intros a Ha. destruct (decide (a < length (heap p))%nat) as [Hlt|Hge].
    - by rewrite lookup_app_l.
    - rewrite lookup_app_r by lia.
      rewrite (lookup_ge_None_2 (heap p)) by lia.
      apply lookup_ge_None_2. cbn. lia. }
  split. { rewrite lookup_app_r by lia. by rewrite Nat.sub_diag. }
  split; [done|]. split. { intros E. apply Hwf in E. lia. }
  split; [exact Hframe|].
  destruct (_default_context p) as [s|] eqn:Hd.
  - split; [by apply get_current_initialized|].
    split; [by apply get_current_initialized|].
    intros f. unfold read_field. cbn.
    rewrite Hframe; [done|]. apply Hwf in Hd. lia.
  - rewrite get_current_uninitialized by done. cbn.
    do 2 eexists. split; [reflexivity|]. rewrite length_app. cbn.
    split; [lia|]. split.
    + rewrite lookup_app_r by (rewrite length_app; cbn; lia).
      rewrite length_app. cbn. by rewrite Nat.sub_diag.
    + rewrite lookup_app_l by (rewrite length_app; cbn; lia).
      rewrite lookup_app_r by lia. by rewrite Nat.sub_diag.
Qed.

Lemma C10_direct_construction_is_separate_witness :
  exists p0 r p',
    import_module ∅ = Ok p0
    /\ DAGContext_new
         (fun f => if decide (f = F_get_timeout) then Some (VInt 99) else None)
         (run p0 [GetCurrent]) = (r, p')
    /\ _default_context p' = _default_context (run p0 [GetCurrent])
    /\ _default_context p' <> Some r.
Proof.
  destruct (import_module ∅) as [p0|e] eqn:Himp;
    [|vm_compute in Himp; discriminate Himp].
  destruct (C10_direct_construction_is_separate ∅ p0 [GetCurrent]
              (fun f => if decide (f = F_get_timeout)
                        then Some (VInt 99) else None) Himp)
    as (r & p' & Hn & _ & Hd & Hne & _).
  exists p0, r, p'. done.
Defined.

(** C6. The import creates no instance: the process starts
    [UNINITIALIZED], with an empty heap.  In any state the process can
    reach, the status is one of the two; a call of [get_current()] leads
    to [INITIALIZED]; while [UNINITIALIZED], no other operation leaves that
    state; once [INITIALIZED], no operation rebinds [_default_context], and
    [get_current()] returns the singleton without constructing anything. *)
Theorem C6_lazy_one_way_lifecycle
    (env : environ) (p0 : process) (os : list op) :
  import_module env = Ok p0 ->
  status p0 = UNINITIALIZED
  /\ heap p0 = []
  /\ (status (run p0 os) = UNINITIALIZED \/ status (run p0 os) = INITIALIZED)
  /\ status (snd (get_current (run p0 os))) = INITIALIZED
  /\ (forall o,
        o <> GetCurrent ->
        status (run p0 os) = UNINITIALIZED ->
        status (exec (run p0 os) o) = UNINITIALIZED)
  /\ (forall o r,
        _default_context (run p0 os) = Some r ->
        _default_context (exec (run p0 os) o) = Some r
        /\ status (exec (run p0 os) o) = INITIALIZED)
  /\ (forall r,
        _default_context (run p0 os) = Some r ->
        get_current (run p0 os) = (r, run p0 os)
        /\ heap (snd (get_current (run p0 os))) = heap (run p0 os)
        /\ (r < length (heap (run p0 os)))%nat).
Proof.
  intros Himp.
  pose proof (run_wf p0 os (import_module_wf env p0 Himp)) as Hwf.
  apply import_module_inv in Himp as (c & _ & Hp0).
  split; [by subst p0|]. split; [by subst p0|].
  set (p := run p0 os) in *. unfold status.
  split; [destruct (_default_context p); auto|].
  split.
  { rewrite get_current_uninitialized_or_not.
    destruct (_default_context p) eqn:E; cbn; [by rewrite E|done]. }
  split.
  { intros o Ho. rewrite (exec_default_context_other p o Ho). done. }
  split.
  { intros o r Hr. by rewrite (exec_default_context_some p o r Hr). }
  intros r Hr. rewrite (get_current_initialized p r Hr). cbn.
  split; [done|]. split; [done|]. by apply Hwf.
Qed.

Lemma C6_lazy_one_way_lifecycle_witness :
  exists p0,
    import_module ∅ = Ok p0
    /\ status p0 = UNINITIALIZED
    /\ status (run p0 [SetEnv "A" "B"; Construct no_kwargs]) = UNINITIALIZED
    /\ status (run p0 [SetEnv "A" "B"; Construct no_kwargs; GetCurrent])
       = INITIALIZED.
Proof.
  destruct (import_module ∅) as [p0|e] eqn:Himp;
    [|vm_compute in Himp; discriminate Himp].
  destruct (C6_lazy_one_way_lifecycle ∅ p0
              [SetEnv "A" "B"; Construct no_kwargs] Himp)
    as (H0 & _ & _ & Hinit & Hstay & _).
  exists p0. split; [done|]. split; [done|].
  assert (status (run p0 [SetEnv "A" "B"; Construct no_kwargs])
          = UNINITIALIZED) as Hu.
  { injection Himp as <-. reflexivity. }
  split; [exact Hu|]. exact Hinit.
Defined.

Lemma C9_later_calls_are_reads_witness :
  exists p0,
    import_module ∅ = Ok p0
    /\ get_current (run (snd (get_current p0)) (replicate 3 GetCurrent))
       = (fst (get_current p0), snd (get_current p0)).
Proof.
  destruct (import_module ∅) as [p0|e] eqn:Himp;
    [|vm_compute in Himp; discriminate Himp].
  exists p0. split; [done|].
  exact (proj2 (proj2 (C9_later_calls_are_reads p0)) 3%nat).
Defined.

(** ** Concurrent first access *)

Section first_access_threads.
Import Threads.

Variable p0 : process.
Hypothesis p0_uninitialized : _default_context p0 = None.

Lemma published_get_current : published p0 = snd (get_current p0).
Proof. by rewrite (get_current_uninitialized p0 p0_uninitialized). Qed.

Lemma p0_not_published : p0 <> published p0.
Proof.
  intros E. apply (f_equal _default_context) in E.
  rewrite p0_uninitialized in E. discriminate E.
Qed.

Lemma constructed_not_published : constructed p0 <> published p0.
Proof.
  intros E. apply (f_equal _default_context) in E. cbn in E.
  rewrite p0_uninitialized in E. discriminate E.
Qed.

Lemma spawn_inv n : inv p0 (spawn p0 n).
Proof.
  split.
  - intros i k [-> _]%lookup_replicate. exact I.
  - split; [by left|]. by intros i k [-> _]%lookup_replicate.
Qed.

(** A thread inside the [with] block holds the lock, alone. *)
Lemma inside_owns c i k :
  lock_ok p0 c -> threads c !! i = Some k -> in_with k = true ->
  _context_lock c = true
  /\ forall j k', threads c !! j = Some k' -> in_with k' = true -> j = i.
Proof.
  unfold lock_ok. intros Hlock Hi Hin.
  destruct (_context_lock c).
  - split; [done|]. destruct Hlock as (i0 & k0 & _ & _ & Huniq).
    intros j k' Hj Hin'.
    by rewrite (Huniq j k' Hj Hin'), (Huniq i k Hi Hin).
  - destruct Hlock as [_ Hout]. rewrite (Hout i k Hi) in Hin. discriminate.
Qed.

(** A step inside the [with] block that keeps the lock. *)
Lemma inside_step_inv c i k k2 p' :
  inv p0 c -> threads c !! i = Some k -> in_with k = true ->
  in_with k2 = true -> pc_ok p0 p' k2 ->
  (proc c = p' \/ proc c <> published p0) ->
  inv p0 {| proc := p'; _context_lock := _context_lock c;
            threads := <[i := k2]> (threads c) |}.
Proof.
  intros [Hpc Hlock] Hi Hin Hin2 Hk2 Hproc.
  destruct (inside_owns c i k Hlock Hi Hin) as [Hl Huniq].
  split; cbn.
  - intros j k' Hj.
    apply list_lookup_insert_Some in Hj as [(-> & <- & _)|[Hne Hj]];
      [done|].
    pose proof (Hpc j k' Hj) as Hok.
    destruct (in_with k') eqn:Hin';
      [destruct Hne; symmetry; by apply (Huniq j k')|].
    destruct k'; try discriminate Hin'; [done|].
    destruct Hok as [-> Hpub]. split; [done|].
    destruct Hproc as [<-|Hne']; done.
  - unfold lock_ok. cbn. rewrite Hl. exists i, k2.
    split; [apply list_lookup_insert_eq; by eapply lookup_lt_Some|].
    split; [done|]. intros j k' Hj Hin'.
    apply list_lookup_insert_Some in Hj as [(-> & _)|[Hne Hj]]; [done|].
    by apply (Huniq j k').
Qed.

Lemma step_inv c i c' :
  inv p0 c -> step_thread i c = Some c' -> inv p0 c'.
Proof.
  intros Hinv Hstep. pose proof Hinv as [Hpc Hlock].
  unfold step_thread in Hstep.
  destruct (threads c !! i) as [k|] eqn:Hi; [|done]. cbn in Hstep.
  pose proof (Hpc i k Hi) as Hk.
  destruct k as [| | |tmp| |ret|ret]; cbn in Hk.
  - (* acquiring the lock *)
    unfold lock_ok in Hlock.
    destruct (_context_lock c) eqn:Hl; [done|]. injection Hstep as <-.
    destruct Hlock as [Hproc Hout]. split; cbn.
    + intros j k' Hj.
      apply list_lookup_insert_Some in Hj as [(-> & <- & _)|[Hne Hj]];
        [exact Hproc|by apply (Hpc j)].
    + unfold lock_ok. cbn. exists i, Test.
      split; [apply list_lookup_insert_eq; by eapply lookup_lt_Some|].
      split; [done|]. intros j k' Hj Hin'.
      apply list_lookup_insert_Some in Hj as [(-> & _)|[Hne Hj]]; [done|].
      rewrite (Hout j k' Hj) in Hin'. discriminate.
  - (* line 102 *)
    destruct Hk as [Hp|Hp].
    + rewrite Hp, p0_uninitialized in Hstep. injection Hstep as <-.
      apply (inside_step_inv c i Test); auto.
    + rewrite Hp in Hstep. cbn in Hstep. injection Hstep as <-.
      apply (inside_step_inv c i Test); auto.
  - (* line 103, the call *)
    cbn in Hstep. injection Hstep as <-.
    apply (inside_step_inv c i Call); auto.
    + split; [by rewrite Hk|]. by rewrite Hk.
    + right. rewrite Hk. apply p0_not_published.
  - (* line 103, the assignment *)
    destruct Hk as [-> Hp]. injection Hstep as <-.
    apply (inside_step_inv c i (Store (length (heap p0)))); auto.
    + cbn. by rewrite Hp.
    + right. rewrite Hp. apply constructed_not_published.
  - (* line 105 *)
    injection Hstep as <-. destruct c as [p l ts]. cbn in *. subst p.
    apply (inside_step_inv {| proc := published p0; _context_lock := l;
                              threads := ts |} i Load); auto.
    by split.
  - (* leaving the block *)
    injection Hstep as <-.
    destruct (inside_owns c i (Release ret) Hlock Hi eq_refl)
      as [Hl Huniq].
    split; cbn.
    + intros j k' Hj.
      apply list_lookup_insert_Some in Hj as [(-> & <- & _)|[Hne Hj]];
        [exact Hk|by apply (Hpc j)].
    + unfold lock_ok. cbn. split; [right; apply Hk|].
      intros j k' Hj.
      apply list_lookup_insert_Some in Hj as [(-> & <- & _)|[Hne Hj]];
        [done|].
      destruct (in_with k') eqn:Hin'; [|done].
      destruct Hne. symmetry. by apply (Huniq j k').
  - done.
Qed.

Lemma sched_step_inv c i : inv p0 c -> inv p0 (sched_step c i).
Proof.
  intros Hinv. unfold sched_step.
  destruct (step_thread i c) as [c'|] eqn:E; [|done].
  by apply (step_inv c i).
Qed.

Lemma run_threads_inv c schedule :
  inv p0 c -> inv p0 (run_threads c schedule).
Proof.
  unfold run_threads. revert c.
  induction schedule as [|i schedule IH]; intros c Hinv; [done|].
  cbn. by apply IH, sched_step_inv.
Qed.

(** Unless every thread has returned, some thread can step: the lock
    never leaves all of them waiting. *)
Lemma inv_progress c :
  inv p0 c ->
  (forall i k, threads c !! i = Some k -> has_returned k = true)
  \/ exists i c', step_thread i c = Some c'.
Proof.
  intros [Hpc Hlock]. unfold lock_ok in Hlock.
  destruct (_context_lock c) eqn:Hl.
  - right. destruct Hlock as (i & k & Hi & Hin & _). exists i.
    unfold step_thread. rewrite Hi. cbn.
    destruct k; try discriminate Hin; eauto.
    destruct (_default_context (proc c)); eauto.
  - destruct Hlock as [_ Hout].
    destruct (decide (Forall (fun k => has_returned k = true) (threads c)))
      as [Hall|Hex].
    + left. intros i k Hi. by apply (proj1 (Forall_lookup _ _) Hall i).
    + right. apply not_Forall_Exists in Hex; [|apply _].
      apply Exists_exists in Hex as (k & Hk & Hnot).
      apply list_elem_of_lookup in Hk as [i Hi]. exists i.
      pose proof (Hout i k Hi) as Hin.
      unfold step_thread. rewrite Hi. cbn.
      destruct k; try discriminate Hin; [|by destruct Hnot].
      rewrite Hl. eauto.
Qed.

End first_access_threads.

(** A step moves one thread to a point with fewer steps left. *)
Lemma steps_left_insert (l : list Threads.pc) i k k2 :
  l !! i = Some k ->
  (Threads.steps_left k2 < Threads.steps_left k)%nat ->
  (foldr (fun k n => (Threads.steps_left k + n)%nat) 0%nat (<[i := k2]> l)
   < foldr (fun k n => (Threads.steps_left k + n)%nat) 0%nat l)%nat.
Proof.
  revert i. induction l as [|a l IH]; intros i Hi Hlt; [done|].
  destruct i as [|i]; cbn -[Threads.steps_left] in *.
  - injection Hi as ->. by apply Nat.add_lt_mono_r.
  - apply Nat.add_lt_mono_l. by apply IH.
Qed.

Lemma step_thread_weight i c c' :
  Threads.step_thread i c = Some c' ->
  (Threads.weight c' < Threads.weight c)%nat.
Proof.
  unfold Threads.step_thread, Threads.weight. intros Hstep.
  destruct (Threads.threads c !! i) as [k|] eqn:Hi; [|done]. cbn in Hstep.
  destruct k; try discriminate Hstep.
  - destruct (Threads._context_lock c); [done|]. injection Hstep as <-.
    cbn. apply (steps_left_insert _ i Threads.Acquire); [done|cbn; lia].
  - destruct (_default_context (Threads.proc c)); injection Hstep as <-;
      cbn; apply (steps_left_insert _ i Threads.Test); try done; cbn; lia.
  - injection Hstep as <-.
    cbn. apply (steps_left_insert _ i Threads.Call); [done|cbn; lia].
  - injection Hstep as <-.
    cbn. apply (steps_left_insert _ i (Threads.Store tmp)); [done|cbn; lia].
  - injection Hstep as <-.
    cbn. apply (steps_left_insert _ i Threads.Load); [done|cbn; lia].
  - injection Hstep as <-.
    cbn. apply (steps_left_insert _ i (Threads.Release ret)); [done|cbn; lia].
Qed.

Lemma step_thread_length i c c' :
  Threads.step_thread i c = Some c' ->
  length (Threads.threads c') = length (Threads.threads c).
Proof.
  unfold Threads.step_thread. intros Hstep.
  destruct (Threads.threads c !! i) as [k|] eqn:Hi; [|done]. cbn in Hstep.
  destruct k; try discriminate Hstep.
  - destruct (Threads._context_lock c); [done|]. injection Hstep as <-.
    cbn. apply length_insert.
  - destruct (_default_context (Threads.proc c)); injection Hstep as <-;
      cbn; apply length_insert.
  - injection Hstep as <-. cbn. apply length_insert.
  - injection Hstep as <-. cbn. apply length_insert.
  - injection Hstep as <-. cbn. apply length_insert.
  - injection Hstep as <-. cbn. apply length_insert.
Qed.

Lemma run_threads_length c schedule :
  length (Threads.threads (Threads.run_threads c schedule))
  = length (Threads.threads c).
Proof.
  unfold Threads.run_threads. revert c.
  induction schedule as [|i schedule IH]; intros c; [done|].
  cbn. rewrite IH. unfold Threads.sched_step.
  destruct (Threads.step_thread i c) as [c'|] eqn:E; [|done].
  cbn. by apply (step_thread_length i).
Qed.

(** Run alone, a thread does what the sequential [get_current] does. *)
Lemma one_thread_is_get_current p :
  Threads.run_threads (Threads.spawn p 1) [0; 0; 0; 0; 0; 0]%nat
  = {| Threads.proc := snd (get_current p);
       Threads._context_lock := false;
       Threads.threads := [Threads.Returned (Some (fst (get_current p)))] |}.
Proof.
  rewrite get_current_uninitialized_or_not.
  destruct p as [e g h [r|]]; reflexivity.
Qed.

(** C7. [n] threads call [get_current()] in a process that has no
    singleton yet, their steps interleaved by any schedule.  At every
    moment at most one object has been constructed.  Every thread that
    has returned has returned the same reference, to the one
    default-constructed object, which [_default_context] is bound to; the
    process state is then the one a single sequential call leaves.  The
    threads never block each other for good: as long as one has not
    returned, one can step, and each step brings the threads closer to
    their return. *)
Theorem C7_concurrent_first_access
    (p0 : process) (n : nat) (schedule : list nat) :
  _default_context p0 = None ->
  let c := Threads.run_threads (Threads.spawn p0 n) schedule in
  let d := DAGContext_init (globals p0) no_kwargs in
  length (Threads.threads c) = n
  /\ (heap (Threads.proc c) = heap p0
      \/ heap (Threads.proc c) = heap p0 ++ [d])
  /\ (forall i ret,
        Threads.threads c !! i = Some (Threads.Returned ret) ->
        ret = Some (length (heap p0))
        /\ _default_context (Threads.proc c) = ret
        /\ heap (Threads.proc c) = heap p0 ++ [d]
        /\ Threads.proc c = snd (get_current p0))
  /\ ((forall i k, Threads.threads c !! i = Some k ->
                   Threads.has_returned k = true)
      \/ exists i c', Threads.step_thread i c = Some c')
  /\ (forall i c',
        Threads.step_thread i c = Some c' ->
        (Threads.weight c' < Threads.weight c)%nat).
Proof.
  intros H0 c d.
  pose proof (run_threads_inv p0 H0 _ schedule (spawn_inv p0 n)) as Hinv.
  fold c in Hinv.
  split. { unfold c. rewrite run_threads_length. cbn. apply length_replicate. }
  split.
  { destruct Hinv as [Hpc Hlock]. unfold Threads.lock_ok in Hlock.
    destruct (Threads._context_lock c).
    - destruct Hlock as (i & k & Hi & Hin & _).
      pose proof (Hpc i k Hi) as Hk.
      destruct k; try discriminate Hin; cbn in Hk.
      + destruct Hk as [->| ->]; auto.
      + rewrite Hk. auto.
      + destruct Hk as [_ ->]. auto.
      + rewrite Hk. auto.
      + destruct Hk as [_ ->]. auto.
    - destruct Hlock as [[->| ->] _]; auto. }
  split.
  { intros i ret Hi. destruct Hinv as [Hpc _].
    destruct (Hpc i _ Hi) as [-> Hp]. rewrite Hp.
    repeat split; try done. by apply published_get_current. }
  split; [by apply (inv_progress p0)|].
  intros i c'. apply step_thread_weight.
Qed.

Lemma C7_concurrent_first_access_witness :
  exists p0,
    import_module ∅ = Ok p0
    /\ Threads.threads
         (Threads.run_threads (Threads.spawn p0 3)
            [0; 1; 0; 2; 0; 0; 1; 0; 0; 1; 1; 2; 2; 1; 1; 1; 2; 2; 2; 2]%nat)
       = [Threads.Returned (Some 0%nat); Threads.Returned (Some 0%nat);
          Threads.Returned (Some 0%nat)]
    /\ forall i ret,
        Threads.threads
          (Threads.run_threads (Threads.spawn p0 3)
             [0; 1; 0; 2; 0; 0; 1; 0; 0; 1; 1; 2; 2; 1; 1; 1; 2; 2; 2; 2]%nat)
          !! i = Some (Threads.Returned ret) ->
        ret = Some 0%nat.
Proof.
  eexists. split; [vm_compute; reflexivity|].
  split; [vm_compute; reflexivity|].
  intros i ret Hi.
  match type of Hi with
  | Threads.threads (Threads.run_threads (Threads.spawn ?p _) _) !! _ = _ =>
      destruct (C7_concurrent_first_access p 3
                  [0; 1; 0; 2; 0; 0; 1; 0; 0; 1;
                   1; 2; 2; 1; 1; 1; 2; 2; 2; 2]%nat
                  eq_refl) as (_ & _ & Hret & _)
  end.
  destruct (Hret i ret Hi) as (-> & _). reflexivity.
Defined.

(** * Further properties *)

(** ** The import *)

Lemma py_int_environ_get_ok env k d m :
  py_int d = Ok m ->
  (forall s, env !! k = Some s -> is_Some (PyInt.of_string s)) ->
  exists n, py_int (environ_get env k d) = Ok n.
Proof.
  intros Hd H. unfold environ_get. destruct (env !! k) as [s|]; [|eauto].
  destruct (H s eq_refl) as [n Hn]. cbn. rewrite Hn. eauto.
Qed.

Lemma module_constants_error env e :
  module_constants env = Raise e -> e = ValueError.
Proof.
  unfold module_constants.
  repeat match goal with
         | |- context [mbind _ (py_int (environ_get ?env ?k ?d))] =>
             destruct (py_int_environ_get_cases env k d _ eq_refl)
               as [[? ->] | ->];
             cbn [mbind result_bind]; [|by intros [= <-]]
         end.
  cbn. discriminate.
Qed.

(** The import succeeds exactly when every [int] override that is set
    parses; the override of the flag never makes it fail.  When the import
    fails, the exception is [ValueError]. *)
Theorem import_succeeds_iff_overrides_parse (env : environ) :
  ((exists p, import_module env = Ok p) <->
   (forall f s, is_int_field f = true -> env !! env_key f = Some s ->
                is_Some (PyInt.of_string s)))
  /\ (forall e, import_module env = Raise e -> e = ValueError).
Proof.
  split; [split|].
  - intros [p (c & Hc & _)%import_module_inv] f s Hint Hs.
    apply module_constants_inv in Hc.
    destruct Hc as (H1 & H2 & H3 & H4 & H5 & H6 & H7 & _).
    destruct f; try discriminate Hint; cbn [env_key] in Hs;
      [ apply py_int_environ_get in H1; rewrite Hs in H1
      | apply py_int_environ_get in H2; rewrite Hs in H2
      | apply py_int_environ_get in H3; rewrite Hs in H3
      | apply py_int_environ_get in H4; rewrite Hs in H4
      | apply py_int_environ_get in H5; rewrite Hs in H5
      | apply py_int_environ_get in H6; rewrite Hs in H6
      | apply py_int_environ_get in H7; rewrite Hs in H7 ]; eauto.
  - intros H. unfold import_module, module_constants.
    destruct (py_int_environ_get_ok env "RAY_CGRAPH_submit_timeout"
                (VInt 10) _ eq_refl
                (fun s Hs => H F_submit_timeout s eq_refl Hs)) as [? ->].
    destruct (py_int_environ_get_ok env "RAY_CGRAPH_get_timeout"
                (VInt 10) _ eq_refl
                (fun s Hs => H F_get_timeout s eq_refl Hs)) as [? ->].
    destruct (py_int_environ_get_ok env "RAY_CGRAPH_teardown_timeout"
                (VInt 30) _ eq_refl
                (fun s Hs => H F_teardown_timeout s eq_refl Hs)) as [? ->].
    destruct (py_int_environ_get_ok env "RAY_CGRAPH_buffer_size_bytes"
                (VFloat float_1e6) _ eq_refl
                (fun s Hs => H F_buffer_size_bytes s eq_refl Hs)) as [? ->].
    destruct (py_int_environ_get_ok env "RAY_CGRAPH_asyncio_max_queue_size"
                (VInt 0) _ eq_refl
                (fun s Hs => H F_asyncio_max_queue_size s eq_refl Hs))
      as [? ->].
    destruct (py_int_environ_get_ok env "RAY_CGRAPH_max_buffered_results"
                (VInt 1000) _ eq_refl
                (fun s Hs => H F_max_buffered_results s eq_refl Hs))
      as [? ->].
    destruct (py_int_environ_get_ok env "RAY_CGRAPH_max_inflight_executions"
                (VInt 10) _ eq_refl
                (fun s Hs => H F_max_inflight_executions s eq_refl Hs))
      as [? ->].
    cbn. eauto.
  - intros e. unfold import_module.
    destruct (module_constants env) as [c|e'] eqn:Hc; [done|].
    cbn. intros [= <-]. by apply (module_constants_error env).
Qed.

(** The value a field gets from the import depends on the field's own
    environment variable only: two environments that agree on it give the
    field the same value, whatever the other variables hold. *)
Theorem field_depends_on_own_variable
    (env1 env2 : environ) (p1 p2 : process) (f : field) :
  import_module env1 = Ok p1 ->
  import_module env2 = Ok p2 ->
  env1 !! env_key f = env2 !! env_key f ->
  read_field (snd (get_current p1)) (fst (get_current p1)) f
  = read_field (snd (get_current p2)) (fst (get_current p2)) f.
Proof.
  intros H1 H2 Hf.
  destruct (first_access env1 p1 [] H1 eq_refl) as (r1 & q1 & Hg1 & Hv1).
  destruct (first_access env2 p2 [] H2 eq_refl) as (r2 & q2 & Hg2 & Hv2).
  cbn in Hg1, Hg2. rewrite Hg1, Hg2. cbn.
  destruct (Hv1 f) as (v1 & Hc1 & ->). destruct (Hv2 f) as (v2 & Hc2 & ->).
  unfold environ_get in Hc1, Hc2. rewrite Hf in Hc1. congruence.
Qed.

Lemma field_depends_on_own_variable_witness :
  exists p1 p2,
    import_module ∅ = Ok p1
    /\ import_module {[ "RAY_CGRAPH_get_timeout" := "5" ]} = Ok p2
    /\ read_field (snd (get_current p1)) (fst (get_current p1))
         F_submit_timeout
       = read_field (snd (get_current p2)) (fst (get_current p2))
           F_submit_timeout.
Proof.
  destruct (import_module ∅) as [p1|e] eqn:H1;
    [|vm_compute in H1; discriminate H1].
  destruct (import_module {[ "RAY_CGRAPH_get_timeout" := "5" ]})
    as [p2|e] eqn:H2; [|vm_compute in H2; discriminate H2].
  exists p1, p2. split; [done|]. split; [done|].
  apply (field_depends_on_own_variable
           ∅ {[ "RAY_CGRAPH_get_timeout" := "5" ]} p1 p2 F_submit_timeout
           H1 H2 eq_refl).
Defined.

(** ** What [int] accepts *)

Lemma all_chars_weaken (P Q : ascii -> bool) s :
  (forall c, P c = true -> Q c = true) ->
  all_chars P s = true -> all_chars Q s = true.
Proof.
  intros HPQ. induction s as [|c s IH]; [done|].
  cbn. intros [Hc Hs]%andb_prop. by rewrite (HPQ c Hc), IH.
Qed.

Lemma all_chars_skip_space (P : ascii -> bool) s :
  (forall c, PyInt.is_space c = true -> P c = true) ->
  all_chars P (PyInt.skip_space s) = true -> all_chars P s = true.
Proof.
  intros HP. induction s as [|c s IH]; [done|].
  cbn. destruct (PyInt.is_space c) eqn:Hc; [|done].
  intros H. by rewrite (HP c Hc), IH.
Qed.

Lemma skip_space_empty s :
  PyInt.skip_space s = EmptyString -> all_chars PyInt.is_space s = true.
Proof.
  induction s as [|c s IH]; [done|].
  cbn. destruct (PyInt.is_space c) eqn:Hc; [|done]. auto.
Qed.

Lemma all_chars_take_sign (P : ascii -> bool) s neg body :
  (forall c, is_sign c = true -> P c = true) ->
  PyInt.take_sign s = (neg, body) ->
  all_chars P body = true -> all_chars P s = true.
Proof.
  intros HP. unfold PyInt.take_sign.
  destruct s as [|c s]; [by intros [= <- <-]|].
  destruct (decide (c = "+"%char)) as [->|Hp].
  { intros [= <- <-] H. cbn. by rewrite HP. }
  destruct (decide (c = "-"%char)) as [->|Hm].
  { intros [= <- <-] H. cbn. by rewrite HP. }
  destruct c as [[] [] [] [] [] [] [] []]; try by intros [= <- <-].
  all: congruence.
Qed.

Lemma all_chars_scan (P : ascii -> bool) s :
  (forall c, is_Some (PyInt.digit_value c) -> P c = true) ->
  (forall c, PyInt.is_underscore c = true -> P c = true) ->
  forall prev_us acc digits n d rest,
    PyInt.scan prev_us acc digits s = Some (n, d, rest) ->
    all_chars P rest = true -> all_chars P s = true.
Proof.
  intros Hd Hu. induction s as [|c s IH]; intros prev_us acc digits n d rest.
  - cbn. destruct prev_us; [done|]. by intros [= _ _ <-].
  - cbn. destruct (PyInt.digit_value c) as [v|] eqn:Hc.
    + intros H Hr. rewrite Hd by (by rewrite Hc). by eapply IH.
    + destruct (PyInt.is_underscore c) eqn:Hus.
      * destruct prev_us; [done|]. intros H Hr. rewrite Hu by done.
        by eapply IH.
      * destruct prev_us; [done|]. by intros [= _ _ <-].
Qed.

(** A string that [int] accepts is made of white space, signs, digits and
    underscores only: a point, an exponent or a base prefix is refused. *)
Lemma of_string_chars s n :
  PyInt.of_string s = Some n -> all_chars int_literal_char s = true.
Proof.
  unfold PyInt.of_string.
  destruct (PyInt.take_sign (PyInt.skip_space s)) as [neg body] eqn:Hsign.
  destruct (PyInt.starts_with_underscore body); [done|].
  destruct (PyInt.scan false 0 0 body) as [[[m d] rest]|] eqn:Hscan; [|done].
  destruct (d =? 0)%nat; [done|].
  destruct (PyInt.skip_space rest) eqn:Hrest; [|done]. intros _.
  apply all_chars_skip_space.
  { intros c Hc. unfold int_literal_char. by rewrite Hc. }
  eapply all_chars_take_sign; [|exact Hsign|].
  { intros c Hc. unfold int_literal_char. rewrite Hc.
    by rewrite orb_true_r. }
  eapply all_chars_scan; [| |exact Hscan|].
  - intros c Hc. unfold int_literal_char.
    rewrite (bool_decide_eq_true_2 _ Hc). by rewrite !orb_true_r.
  - intros c Hc. unfold int_literal_char. rewrite Hc.
    by rewrite orb_true_r.
  - eapply all_chars_weaken; [|by apply skip_space_empty].
    intros c Hc. unfold int_literal_char. by rewrite Hc.
Qed.

(** When the import succeeds, every [int] override that is set consists of
    white space, signs, digits and underscores only.  So an override with a
    point, an exponent or a base prefix, such as "1e6", the spelling of the
    default of [buffer_size_bytes] in the source, makes the import fail. *)
Theorem int_override_characters
    (env : environ) (p : process) (f : field) (s : string) :
  import_module env = Ok p ->
  is_int_field f = true ->
  env !! env_key f = Some s ->
  all_chars int_literal_char s = true.
Proof.
  intros (c & Hc & _)%import_module_inv Hint Hs.
  pose proof (constants_table env c Hc f) as Ht.
  unfold convert, environ_get in Ht. rewrite Hint, Hs in Ht. cbn in Ht.
  destruct (PyInt.of_string s) as [n|] eqn:Hn; [|done].
  by apply (of_string_chars s n).
Qed.

Lemma int_override_characters_witness :
  all_chars int_literal_char " -1_000 " = true
  /\ import_module {[ "RAY_CGRAPH_buffer_size_bytes" := "1e6" ]}
     = Raise ValueError.
Proof.
  split.
  - apply (int_override_characters
             {[ "RAY_CGRAPH_get_timeout" := " -1_000 " ]}
             {| os_environ := {[ "RAY_CGRAPH_get_timeout" := " -1_000 " ]};
                globals := {| DEFAULT_SUBMIT_TIMEOUT_S := 10;
                              DEFAULT_GET_TIMEOUT_S := -1000;
                              DEFAULT_TEARDOWN_TIMEOUT_S := 30;
                              DEFAULT_BUFFER_SIZE_BYTES := 1000000;
                              DEFAULT_ASYNCIO_MAX_QUEUE_SIZE := 0;
                              DEFAULT_MAX_BUFFERED_RESULTS := 1000;
                              DEFAULT_MAX_INFLIGHT_EXECUTIONS := 10;
                              DEFAULT_OVERLAP_GPU_COMMUNICATION := false |};
                heap := []; _default_context := None |}
             F_get_timeout " -1_000 "); vm_compute; reflexivity.
  - vm_compute. reflexivity.
Defined.

(** *** Decimal numerals *)

Lemma digit_value_pretty_N_char (d : N) :
  (d < 10)%N -> PyInt.digit_value (pretty_N_char d) = Some (Z.of_N d).
Proof.
  intros Hd.
  assert (d = 0 \/ d = 1 \/ d = 2 \/ d = 3 \/ d = 4 \/ d = 5 \/ d = 6
          \/ d = 7 \/ d = 8 \/ d = 9)%N as H by lia.
  repeat destruct H as [->|H]; try subst d; reflexivity.
Qed.

(** A numeral starts with a digit, so [int] finds no white space, no sign
    and no underscore in front of it. *)
Lemma digit_first_inert (d : N) rest :
  (d < 10)%N ->
  PyInt.skip_space (String (pretty_N_char d) rest)
    = String (pretty_N_char d) rest
  /\ PyInt.take_sign (String (pretty_N_char d) rest)
    = (false, String (pretty_N_char d) rest)
  /\ PyInt.starts_with_underscore (String (pretty_N_char d) rest) = false.
Proof.
  intros Hd.
  assert (d = 0 \/ d = 1 \/ d = 2 \/ d = 3 \/ d = 4 \/ d = 5 \/ d = 6
          \/ d = 7 \/ d = 8 \/ d = 9)%N as H by lia.
  repeat destruct H as [->|H]; try subst d; done.
Qed.

Lemma pretty_N_go_first (x : N) s :
  (0 < x)%N ->
  exists d rest, (d < 10)%N
    /\ pretty_N_go x s = String (pretty_N_char d) rest.
Proof.
  revert s. induction (N.lt_wf_0 x) as [x _ IH]; intros s Hx.
  rewrite pretty_N_go_step by done.
  destruct (decide (x `div` 10 = 0)%N) as [E|E].
  - rewrite E, pretty_N_go_0. exists (x `mod` 10)%N, s.
    split; [by apply N.mod_lt|done].
  - apply IH; [by apply N.div_lt|by apply N.neq_0_lt_0].
Qed.

(** Scanning the numeral of [x] reads [x] and counts its digits. *)
Lemma scan_pretty_N_go (x : N) :
  forall acc digits s,
  exists nd : nat,
    PyInt.scan false acc digits (pretty_N_go x s)
    = PyInt.scan false (acc * 10 ^ Z.of_nat nd + Z.of_N x)
        (digits + nd)%nat s
    /\ (x = 0%N -> nd = 0%nat)
    /\ ((0 < x)%N -> 10 ^ Z.of_nat nd <= 10 * Z.of_N x)
    /\ Z.of_N x < 10 ^ Z.of_nat nd.
Proof.
  induction (N.lt_wf_0 x) as [x _ IH]; intros acc digits s.
  destruct (decide (x = 0)%N) as [->|Hx].
  { exists 0%nat. rewrite pretty_N_go_0. cbn.
    rewrite Z.mul_1_r, Z.add_0_r, Nat.add_0_r.
    repeat split; first [done | lia]. }
  assert (0 < x)%N as Hpos by lia.
  rewrite pretty_N_go_step by done.
  destruct (IH (x `div` 10)%N (N.div_lt x 10 Hpos eq_refl) acc digits
              (String (pretty_N_char (x `mod` 10)) s))
    as (nd & Hscan & Hzero & Hlow & Hup).
  assert (Z.of_N x = 10 * Z.of_N (x `div` 10) + Z.of_N (x `mod` 10)
          /\ 0 <= Z.of_N (x `mod` 10) < 10
          /\ 0 <= Z.of_N (x `div` 10)) as (Hx' & Hm & Hq).
  { rewrite N2Z.inj_mod, N2Z.inj_div. change (Z.of_N 10) with 10.
    pose proof (Z.div_mod (Z.of_N x) 10 ltac:(done)).
    pose proof (Z.mod_pos_bound (Z.of_N x) 10 ltac:(done)).
    pose proof (Z.div_pos (Z.of_N x) 10 ltac:(lia) ltac:(done)). lia. }
  assert (10 ^ Z.of_nat nd <= Z.of_N x) as Hlow'.
  { destruct (decide (x `div` 10 = 0)%N) as [E|E].
    - rewrite (Hzero E). change (10 ^ Z.of_nat 0) with 1. lia.
    - specialize (Hlow (proj1 (N.neq_0_lt_0 _) E)). lia. }
  exists (S nd). rewrite Hscan. cbn [PyInt.scan].
  rewrite digit_value_pretty_N_char by (by apply N.mod_lt).
  rewrite Nat2Z.inj_succ, Z.pow_succ_r by lia.
  generalize dependent (10 ^ Z.of_nat nd). intros B _ _ Hup Hlow'.
  split; [f_equal; lia|]. split; [lia|]. split; [lia|lia].
Qed.

Lemma of_string_numeral (x : N) (neg : bool) :
  (0 < x)%N -> Z.of_N x < 10 ^ 4300 ->
  PyInt.of_string
    (if neg then String "-" (pretty_N_go x "") else pretty_N_go x "")
  = Some (if neg then - Z.of_N x else Z.of_N x).
Proof.
  intros Hx Hbound.
  destruct (pretty_N_go_first x "" Hx) as (d & rest & Hd & Hfirst).
  destruct (digit_first_inert d rest Hd) as (Hsp & Hsign & Hus).
  destruct (scan_pretty_N_go x 0 0%nat "") as (nd & Hscan & _ & Hlow & Hup).
  specialize (Hlow Hx). cbn [PyInt.scan] in Hscan.
  rewrite Z.mul_0_l, Z.add_0_l, Nat.add_0_l in Hscan.
  assert (nd <> 0 /\ nd <= 4300)%nat as [Hnd0 Hnd].
  { split.
    - intros ->. change (10 ^ Z.of_nat 0) with 1 in Hup. lia.
    - assert (10 ^ Z.of_nat nd < 10 ^ Z.succ 4300) as Hlt.
      { rewrite (Z.pow_succ_r 10 4300) by done.
        generalize dependent (10 ^ 4300). intros. lia. }
      apply Z.pow_lt_mono_r_iff in Hlt; [|done|done].
      clear -Hlt. apply Nat2Z.inj_le. revert Hlt.
      generalize (Z.of_nat nd). intros z Hz.
      change (Z.of_nat 4300) with 4300. lia. }
  unfold PyInt.of_string.
  assert (PyInt.take_sign
            (PyInt.skip_space
               (if neg then String "-" (pretty_N_go x "")
                else pretty_N_go x ""))
          = (neg, pretty_N_go x "")) as ->.
  { destruct neg; [done|]. by rewrite Hfirst, Hsp, Hsign. }
  rewrite Hfirst at 1. rewrite Hus, Hscan.
  destruct (Nat.eqb_spec nd 0) as [E|_]; [done|].
  cbn [PyInt.skip_space].
  destruct (Nat.ltb_spec PyInt.max_str_digits nd) as [Hgt|_]; [|done].
  unfold PyInt.max_str_digits in Hgt. lia.
Qed.

(** [int] reads the decimal numeral of a number back as that number. *)
Lemma of_string_pretty (z : Z) :
  Z.abs z < 10 ^ 4300 -> PyInt.of_string (pretty z) = Some z.
Proof.
  intros Hz. destruct z as [|p|p]; [done| |].
  - apply (of_string_numeral (Npos p) false); [done|].
    generalize dependent (10 ^ 4300). intros. lia.
  - apply (of_string_numeral (Npos p) true); [done|].
    generalize dependent (10 ^ 4300). intros. lia.
Qed.

(** An [int] override written as the decimal numeral of [z], the way
    [str(z)] writes it, gives the field the value [z]: no range is
    enforced, negative numbers and zero included. *)
Theorem override_numeral_round_trip
    (env : environ) (p0 : process) (f : field) (z : Z) :
  import_module env = Ok p0 ->
  is_int_field f = true ->
  Z.abs z < 10 ^ 4300 ->
  env !! env_key f = Some (pretty z) ->
  read_field (snd (get_current p0)) (fst (get_current p0)) f
  = Some (VInt z).
Proof.
  intros Himp Hint Hz Hs.
  destruct (first_access env p0 [] Himp eq_refl) as (r & p1 & Hg & Hv).
  cbn in Hg. rewrite Hg. cbn.
  destruct (Hv f) as (v & Hc & ->).
  unfold convert, environ_get in Hc. rewrite Hint, Hs in Hc. cbn in Hc.
  rewrite (of_string_pretty z Hz) in Hc. cbn in Hc. by injection Hc as <-.
Qed.

Lemma override_numeral_round_trip_witness :
  exists p0,
    import_module {[ "RAY_CGRAPH_max_buffered_results" := pretty (-2500) ]}
    = Ok p0
    /\ read_field (snd (get_current p0)) (fst (get_current p0))
         F_max_buffered_results
       = Some (VInt (-2500)).
Proof.
  destruct (import_module
              {[ "RAY_CGRAPH_max_buffered_results" := pretty (-2500) ]})
    as [p0|e] eqn:Himp; [|vm_compute in Himp; discriminate Himp].
  exists p0. split; [done|].
  apply (override_numeral_round_trip
           {[ "RAY_CGRAPH_max_buffered_results" := pretty (-2500) ]}
           p0 F_max_buffered_results (-2500) Himp eq_refl);
    vm_compute; reflexivity.
Defined.

(** ** Instances and their defaults *)

Lemma convert_type f x v :
  convert f x = Ok v ->
  if is_int_field f then exists n, v = VInt n else exists b, v = VBool b.
Proof.
  unfold convert. destruct (is_int_field f).
  - destruct (py_int x) as [n|]; [|done]. cbn. intros [= <-]. eauto.
  - cbn. intros [= <-]. eauto.
Qed.

Lemma getattr_init c kw f :
  getattr (DAGContext_init c kw) f
  = default (getattr (DAGContext_init c no_kwargs) f) (kw f).
Proof. by destruct f. Qed.

(** Whatever has happened since the import (assignments to the singleton,
    changes of the environment, other constructions), a constructor call
    gives each field the keyword argument, or else the value resolved at
    import from the environment of that time: an [int] for the seven
    numeric fields and a [bool] for the flag. *)
Theorem constructor_defaults_fixed_at_import
    (env : environ) (p0 : process) (os : list op) (kw : kwargs) (f : field) :
  import_module env = Ok p0 ->
  exists v,
    convert f (environ_get env (env_key f) (default_literal f)) = Ok v
    /\ (if is_int_field f then exists n, v = VInt n
        else exists b, v = VBool b)
    /\ read_field (snd (DAGContext_new kw (run p0 os)))
         (fst (DAGContext_new kw (run p0 os))) f
       = Some (default v (kw f)).
Proof.
  intros Himp. pose proof (run_globals p0 os) as Hg.
  apply import_module_inv in Himp as (c & Hc & ->). cbn in Hg.
  pose proof (constants_table env c Hc f) as Ht.
  eexists. split; [exact Ht|]. split; [by apply (convert_type _ _ _ Ht)|].
  unfold read_field. cbn. rewrite lookup_app_r by lia.
  rewrite Nat.sub_diag. cbn. by rewrite Hg, getattr_init.
Qed.

Lemma constructor_defaults_fixed_at_import_witness :
  exists p0,
    import_module {[ "RAY_CGRAPH_teardown_timeout" := "45" ]} = Ok p0
    /\ read_field
         (snd (DAGContext_new no_kwargs
                 (run p0 [GetCurrent; Assign 0 F_teardown_timeout (VInt 1);
                          DelEnv "RAY_CGRAPH_teardown_timeout"])))
         (fst (DAGContext_new no_kwargs
                 (run p0 [GetCurrent; Assign 0 F_teardown_timeout (VInt 1);
                          DelEnv "RAY_CGRAPH_teardown_timeout"])))
         F_teardown_timeout
       = Some (VInt 45).
Proof.
  destruct (import_module {[ "RAY_CGRAPH_teardown_timeout" := "45" ]})
    as [p0|e] eqn:Himp; [|vm_compute in Himp; discriminate Himp].
  exists p0. split; [done|].
  destruct (constructor_defaults_fixed_at_import
              {[ "RAY_CGRAPH_teardown_timeout" := "45" ]} p0
              [GetCurrent; Assign 0 F_teardown_timeout (VInt 1);
               DelEnv "RAY_CGRAPH_teardown_timeout"]
              no_kwargs F_teardown_timeout Himp) as (v & Hv & _ & Hr).
  vm_compute in Hv. injection Hv as <-. exact Hr.
Defined.

(** ** The environment after the import *)

Lemma exec_same_but_environ p q o :
  globals p = globals q -> heap p = heap q ->
  _default_context p = _default_context q ->
  globals (exec p o) = globals (exec q o)
  /\ heap (exec p o) = heap (exec q o)
  /\ _default_context (exec p o) = _default_context (exec q o).
Proof.
  intros Hg Hh Hd. destruct o as [|kw|r f v|k s|k]; cbn; try done.
  - rewrite !get_current_uninitialized_or_not, <- Hd.
    destruct (_default_context p) eqn:E; cbn; [rewrite E; auto|].
    rewrite Hg, Hh. auto.
  - rewrite Hg, Hh. auto.
  - unfold write_field. rewrite <- Hh.
    destruct (heap p !! r); cbn; auto.
Qed.

(** After the import the module never looks at the environment again:
    dropping every change of the environment from a sequence of operations
    changes neither the objects nor the singleton. *)
Theorem environment_changes_are_unobservable (p : process) (os : list op) :
  heap (run p os) = heap (run p (filter (fun o => is_env_op o = false) os))
  /\ _default_context (run p os)
     = _default_context (run p (filter (fun o => is_env_op o = false) os))
  /\ globals (run p os)
     = globals (run p (filter (fun o => is_env_op o = false) os)).
Proof.
  cut (forall q, globals p = globals q -> heap p = heap q ->
                 _default_context p = _default_context q ->
         heap (run p os)
           = heap (run q (filter (fun o => is_env_op o = false) os))
         /\ _default_context (run p os)
           = _default_context
               (run q (filter (fun o => is_env_op o = false) os))
         /\ globals (run p os)
           = globals (run q (filter (fun o => is_env_op o = false) os))).
  { intros H. by apply H. }
  unfold run. revert p.
  induction os as [|o os IH]; intros p q Hg Hh Hd; [done|].
  cbn [foldl]. rewrite filter_cons.
  destruct (decide (is_env_op o = false)) as [Ho|Ho].
  - cbn [foldl].
    destruct (exec_same_but_environ p q o Hg Hh Hd) as (Hg' & Hh' & Hd').
    by apply IH.
  - apply IH; destruct o; done.
Qed.

(** ** The singleton among the objects *)

(** The reference that [get_current()] has returned once is the one it
    returns after any further operations, whatever they are. *)
Theorem singleton_reference_is_permanent (p : process) (os : list op) :
  get_current (run (snd (get_current p)) os)
  = (fst (get_current p), run (snd (get_current p)) os).
Proof.
  assert (exists r, _default_context (snd (get_current p)) = Some r
                    /\ fst (get_current p) = r) as (r & Hd & ->).
  { rewrite get_current_uninitialized_or_not.
    destruct (_default_context p) eqn:E; cbn; eauto. }
  generalize dependent (snd (get_current p)). intros p1 Hd.
  apply get_current_initialized.
  unfold run. revert p1 Hd.
  induction os as [|o os IH]; intros p1 Hd; [done|].
  cbn. by apply IH, exec_default_context_some.
Qed.

Lemma exec_heap_lookup p o r x :
  heap p !! r = Some x -> assigns_to r o = false ->
  heap (exec p o) !! r = Some x.
Proof.
  intros Hr Ho. destruct o as [|kw|r' f v|k s|k]; cbn; try done.
  - rewrite get_current_uninitialized_or_not.
    destruct (_default_context p); cbn; [done|].
    by apply lookup_app_l_Some.
  - by apply lookup_app_l_Some.
  - cbn in Ho. apply bool_decide_eq_false in Ho.
    destruct (write_field p r' f v) as [p'|] eqn:E; [|done].
    apply write_field_inv in E as (y & _ & ->). cbn.
    by rewrite list_lookup_insert_ne.
Qed.

(** An object changes only through an assignment to a reference to it:
    calls of [get_current()], constructions, changes of the environment
    and assignments to other objects leave every field of it as it is, and
    the reference stays valid. *)
Theorem object_changes_only_by_assignment
    (p : process) (os : list op) (r : ref) (x : DAGContext) :
  heap p !! r = Some x ->
  forallb (fun o => negb (assigns_to r o)) os = true ->
  heap (run p os) !! r = Some x.
Proof.
  unfold run. revert p.
  induction os as [|o os IH]; intros p Hr Hos; [done|].
  cbn in Hos. apply andb_prop in Hos as [Ho Hos].
  cbn. apply IH; [|done]. apply exec_heap_lookup; [done|].
  by apply negb_true_iff.
Qed.

Lemma object_changes_only_by_assignment_witness :
  heap (run (snd (get_current
                    {| os_environ := ∅;
                       globals := {| DEFAULT_SUBMIT_TIMEOUT_S := 10;
                                     DEFAULT_GET_TIMEOUT_S := 10;
                                     DEFAULT_TEARDOWN_TIMEOUT_S := 30;
                                     DEFAULT_BUFFER_SIZE_BYTES := 1000000;
                                     DEFAULT_ASYNCIO_MAX_QUEUE_SIZE := 0;
                                     DEFAULT_MAX_BUFFERED_RESULTS := 1000;
                                     DEFAULT_MAX_INFLIGHT_EXECUTIONS := 10;
                                     DEFAULT_OVERLAP_GPU_COMMUNICATION :=
                                       false |};
                       heap := []; _default_context := None |}))
         [Construct no_kwargs; Assign 1 F_get_timeout (VInt 3); GetCurrent;
          SetEnv "RAY_CGRAPH_get_timeout" "7"]) !! 0%nat
  = Some compiled_defaults.
Proof.
  apply object_changes_only_by_assignment; reflexivity.
Defined.

(** The singleton and an instance built directly share nothing: an
    assignment to a field of the one is not seen through the other, in
    either direction. *)
Theorem separate_instances_do_not_alias
    (env : environ) (p0 : process) (os : list op) (kw : kwargs)
    (f : field) (v : value) :
  import_module env = Ok p0 ->
  exists s p1 r p2 p3 p4,
    get_current (run p0 os) = (s, p1)
    /\ DAGContext_new kw p1 = (r, p2)
    /\ s <> r
    /\ write_field p2 r f v = Some p3
    /\ (forall g, read_field p3 s g = read_field p1 s g)
    /\ get_current p3 = (s, p3)
    /\ write_field p2 s f v = Some p4
    /\ (forall g, read_field p4 r g = read_field p2 r g).
Proof.
  intros Himp.
  pose proof (run_wf p0 os (import_module_wf env p0 Himp)) as Hwf.
  pose proof (exec_wf _ GetCurrent Hwf) as Hwf1. cbn in Hwf1.
  assert (exists s, _default_context (snd (get_current (run p0 os))) = Some s
                    /\ fst (get_current (run p0 os)) = s) as (s & Hd & Hs).
  { rewrite get_current_uninitialized_or_not.
    destruct (_default_context (run p0 os)) eqn:E; cbn; eauto. }
  destruct (get_current (run p0 os)) as [s' p1]. cbn in *. subst s'.
  pose proof (Hwf1 s Hd) as Hlt.
  set (p2 := snd (DAGContext_new kw p1)).
  assert (length (heap p2) = S (length (heap p1))) as Hlen.
  { cbn. rewrite length_app. cbn. lia. }
  destruct (write_then_read p2 (length (heap p1)) f v ltac:(lia))
    as (p3 & Hw3 & _ & Hd3 & _ & _ & Hframe3).
  destruct (write_then_read p2 s f v ltac:(lia))
    as (p4 & Hw4 & _ & _ & _ & _ & Hframe4).
  exists s, p1, (length (heap p1)), p2, p3, p4.
  split; [done|]. split; [done|]. split; [lia|]. split; [done|].
  split.
  { intros g. rewrite Hframe3 by lia. unfold read_field. cbn.
    by rewrite lookup_app_l. }
  split. { apply get_current_initialized. by rewrite Hd3. }
  split; [done|]. intros g. apply Hframe4. lia.
Qed.

Lemma separate_instances_do_not_alias_witness :
  exists p0 s p1 r p2 p3,
    import_module ∅ = Ok p0
    /\ get_current (run p0 []) = (s, p1)
    /\ DAGContext_new no_kwargs p1 = (r, p2)
    /\ write_field p2 r F_buffer_size_bytes (VInt 1) = Some p3
    /\ read_field p3 s F_buffer_size_bytes
       = read_field p1 s F_buffer_size_bytes.
Proof.
  destruct (import_module ∅) as [p0|e] eqn:Himp;
    [|vm_compute in Himp; discriminate Himp].
  destruct (separate_instances_do_not_alias ∅ p0 [] no_kwargs
              F_buffer_size_bytes (VInt 1) Himp)
    as (s & p1 & r & p2 & p3 & p4 & Hg & Hn & _ & Hw & Hf & _).
  exists p0, s, p1, r, p2, p3. repeat split; done.
Defined.

(** ** More on threads *)

Lemma mutex_spawn p n : mutex (Threads.spawn p n).
Proof. by intros i k [-> _]%lookup_replicate. Qed.

Lemma mutex_owner c i k :
  mutex c -> Threads.threads c !! i = Some k -> Threads.in_with k = true ->
  Threads._context_lock c = true
  /\ forall j k', Threads.threads c !! j = Some k' ->
                  Threads.in_with k' = true -> j = i.
Proof.
  unfold mutex. intros Hm Hi Hin.
  destruct (Threads._context_lock c).
  - split; [done|]. destruct Hm as (i0 & k0 & _ & _ & Huniq).
    intros j k' Hj Hin'.
    by rewrite (Huniq j k' Hj Hin'), (Huniq i k Hi Hin).
  - rewrite (Hm i k Hi) in Hin. discriminate.
Qed.

(** A thread inside the block moves to another point inside it. *)
Lemma mutex_inside c i k k2 p' :
  mutex c -> Threads.threads c !! i = Some k ->
  Threads.in_with k = true -> Threads.in_with k2 = true ->
  mutex {| Threads.proc := p';
           Threads._context_lock := Threads._context_lock c;
           Threads.threads := <[i := k2]> (Threads.threads c) |}.
Proof.
  intros Hm Hi Hin Hin2.
  destruct (mutex_owner c i k Hm Hi Hin) as [Hl Huniq].
  unfold mutex. cbn. rewrite Hl. exists i, k2.
  split; [apply list_lookup_insert_eq; by eapply lookup_lt_Some|].
  split; [done|]. intros j k' Hj Hin'.
  apply list_lookup_insert_Some in Hj as [(-> & _)|[Hne Hj]]; [done|].
  by apply (Huniq j k').
Qed.

Lemma mutex_step c i c' :
  mutex c -> Threads.step_thread i c = Some c' -> mutex c'.
Proof.
  intros Hm Hstep. unfold Threads.step_thread in Hstep.
  destruct (Threads.threads c !! i) as [k|] eqn:Hi; [|done]. cbn in Hstep.
  destruct k as [| | |tmp| |ret|ret].
  - pose proof Hm as Hm'. unfold mutex in Hm'.
    destruct (Threads._context_lock c) eqn:Hl; [done|].
    injection Hstep as <-. unfold mutex. cbn. exists i, Threads.Test.
    split; [apply list_lookup_insert_eq; by eapply lookup_lt_Some|].
    split; [done|]. intros j k' Hj Hin'.
    apply list_lookup_insert_Some in Hj as [(-> & _)|[Hne Hj]]; [done|].
    rewrite (Hm' j k' Hj) in Hin'. discriminate.
  - destruct (_default_context (Threads.proc c)); injection Hstep as <-;
      by apply (mutex_inside c i Threads.Test).
  - injection Hstep as <-. by apply (mutex_inside c i Threads.Call).
  - injection Hstep as <-. by apply (mutex_inside c i (Threads.Store tmp)).
  - injection Hstep as <-. by apply (mutex_inside c i Threads.Load).
  - injection Hstep as <-.
    destruct (mutex_owner c i _ Hm Hi eq_refl) as [Hl Huniq].
    unfold mutex. cbn. intros j k' Hj.
    apply list_lookup_insert_Some in Hj as [(-> & <- & _)|[Hne Hj]];
      [done|].
    destruct (Threads.in_with k') eqn:Hin'; [|done].
    destruct Hne. symmetry. by apply (Huniq j k').
  - done.
Qed.

Lemma mutex_run c schedule :
  mutex c -> mutex (Threads.run_threads c schedule).
Proof.
  unfold Threads.run_threads. revert c.
  induction schedule as [|i schedule IH]; intros c Hm; [done|].
  cbn. apply IH. unfold Threads.sched_step.
  destruct (Threads.step_thread i c) as [c'|] eqn:E; [|done].
  by apply (mutex_step c i).
Qed.

(** Whatever the process state and the schedule, at most one thread is
    inside the [with] block at any time, and the lock is held exactly
    when one is. *)
Theorem mutual_exclusion (p : process) (n : nat) (schedule : list nat) :
  let c := Threads.run_threads (Threads.spawn p n) schedule in
  (forall i j ki kj,
     Threads.threads c !! i = Some ki -> Threads.threads c !! j = Some kj ->
     Threads.in_with ki = true -> Threads.in_with kj = true -> i = j)
  /\ (Threads._context_lock c = true <->
      exists i k, Threads.threads c !! i = Some k
                  /\ Threads.in_with k = true).
Proof.
  intros c. pose proof (mutex_run _ schedule (mutex_spawn p n)) as Hm.
  fold c in Hm. split.
  - intros i j ki kj Hi Hj Hini Hinj.
    destruct (mutex_owner c j kj Hm Hj Hinj) as [_ Huniq].
    by apply (Huniq i ki).
  - split.
    + intros Hl. unfold mutex in Hm. rewrite Hl in Hm.
      destruct Hm as (i & k & Hi & Hin & _). eauto.
    + intros (i & k & Hi & Hin). by destruct (mutex_owner c i k Hm Hi Hin).
Qed.

Lemma forallb_lookup {A} (f : A -> bool) (l : list A) i x :
  forallb f l = true -> l !! i = Some x -> f x = true.
Proof.
  revert i. induction l as [|a l IH]; intros i; [done|].
  cbn. intros [Ha Hl]%andb_prop. destruct i as [|i]; cbn.
  - by intros [= <-].
  - by apply IH.
Qed.

Lemma forallb_false_lookup {A} (f : A -> bool) (l : list A) :
  forallb f l = false -> exists i x, l !! i = Some x /\ f x = false.
Proof.
  induction l as [|a l IH]; [done|]. cbn.
  destruct (f a) eqn:Ha.
  - cbn. intros (i & x & Hi & Hx)%IH. by exists (S i), x.
  - intros _. by exists 0%nat, a.
Qed.

Lemma mutex_progress c :
  mutex c ->
  forallb Threads.has_returned (Threads.threads c) = true
  \/ exists i c', Threads.step_thread i c = Some c'.
Proof.
  intros Hm. pose proof Hm as Hm'. unfold mutex in Hm'.
  destruct (Threads._context_lock c) eqn:Hl.
  - right. destruct Hm' as (i & k & Hi & Hin & _). exists i.
    unfold Threads.step_thread. rewrite Hi. cbn.
    destruct k; try discriminate Hin; eauto.
    destruct (_default_context (Threads.proc c)); eauto.
  - destruct (forallb Threads.has_returned (Threads.threads c)) eqn:Hall;
      [by left|right].
    apply forallb_false_lookup in Hall as (i & k & Hi & Hnot). exists i.
    pose proof (Hm' i k Hi) as Hin.
    unfold Threads.step_thread. rewrite Hi. cbn.
    destruct k; try discriminate Hin; [|discriminate Hnot].
    rewrite Hl. eauto.
Qed.

Lemma mutex_completion c :
  mutex c ->
  exists rest,
    (length rest <= Threads.weight c)%nat
    /\ forallb Threads.has_returned
         (Threads.threads (Threads.run_threads c rest)) = true.
Proof.
  remember (Threads.weight c) as w eqn:Hw. revert c Hw.
  induction (lt_wf w) as [w _ IH]. intros c -> Hm.
  destruct (mutex_progress c Hm) as [Hall|(i & c' & Hstep)].
  - exists []. split; [cbn; lia|done].
  - pose proof (step_thread_weight i c c' Hstep) as Hlt.
    destruct (IH _ Hlt c' eq_refl (mutex_step c i c' Hm Hstep))
      as (rest & Hlen & Hall).
    exists (i :: rest). split; [cbn; lia|].
    unfold Threads.run_threads in *. cbn. unfold Threads.sched_step.
    by rewrite Hstep.
Qed.

Lemma run_threads_weight c schedule :
  (Threads.weight (Threads.run_threads c schedule) <= Threads.weight c)%nat.
Proof.
  unfold Threads.run_threads. revert c.
  induction schedule as [|i schedule IH]; intros c; [done|].
  cbn. etrans; [apply IH|]. unfold Threads.sched_step.
  destruct (Threads.step_thread i c) as [c'|] eqn:E; [|done].
  cbn. pose proof (step_thread_weight i c c' E). lia.
Qed.

Lemma weight_spawn p n : Threads.weight (Threads.spawn p n) = (6 * n)%nat.
Proof.
  unfold Threads.weight. cbn. induction n as [|n IH]; [done|].
  cbn [replicate foldr]. rewrite IH. cbn. lia.
Qed.

(** However the threads have been scheduled so far, they can all be run
    to their return, in at most six steps each: no thread waits for the
    lock for ever, and the lock is free at the end. *)
Theorem threads_can_all_return (p : process) (n : nat) (schedule : list nat) :
  exists rest,
    (length rest <= 6 * n)%nat
    /\ forallb Threads.has_returned
         (Threads.threads
            (Threads.run_threads (Threads.spawn p n) (schedule ++ rest)))
       = true
    /\ Threads._context_lock
         (Threads.run_threads (Threads.spawn p n) (schedule ++ rest))
       = false.
Proof.
  pose proof (mutex_run _ schedule (mutex_spawn p n)) as Hm.
  destruct (mutex_completion _ Hm) as (rest & Hlen & Hall).
  exists rest.
  pose proof (run_threads_weight (Threads.spawn p n) schedule) as Hw.
  rewrite weight_spawn in Hw. split; [lia|].
  unfold Threads.run_threads in *. rewrite foldl_app. split; [done|].
  pose proof (mutex_run _ rest Hm) as Hm'.
  unfold Threads.run_threads in Hm'.
  match goal with |- Threads._context_lock ?c = false => set (cE := c) in * end.
  destruct (Threads._context_lock cE) eqn:Hl; [|done].
  unfold mutex in Hm'. rewrite Hl in Hm'.
  destruct Hm' as (i & k & Hi & Hin & _).
  pose proof (forallb_lookup _ _ i k Hall Hi) as Hk.
  destruct k; discriminate.
Qed.

(** When the singleton exists already, threads that call [get_current()]
    at once construct nothing and change nothing: the process state stays
    as it is, and every thread returns the singleton. *)
Theorem concurrent_later_access
    (p : process) (r : ref) (n : nat) (schedule : list nat) :
  _default_context p = Some r ->
  let c := Threads.run_threads (Threads.spawn p n) schedule in
  Threads.proc c = p
  /\ forall i k, Threads.threads c !! i = Some k -> reads_singleton r k.
Proof.
  intros Hd c.
  cut (forall c0,
         (Threads.proc c0 = p
          /\ forall i k, Threads.threads c0 !! i = Some k ->
                         reads_singleton r k) ->
         let c1 := Threads.run_threads c0 schedule in
         Threads.proc c1 = p
         /\ forall i k, Threads.threads c1 !! i = Some k ->
                        reads_singleton r k).
  { intros H. apply H. split; [done|].
    by intros i k [-> _]%lookup_replicate. }
  unfold Threads.run_threads.
  induction schedule as [|i schedule IH]; intros c0 Hc0; [done|].
  cbn. apply IH. destruct Hc0 as [Hp Hk].
  unfold Threads.sched_step, Threads.step_thread.
  destruct (Threads.threads c0 !! i) as [k|] eqn:Hi; [|done]. cbn.
  pose proof (Hk i k Hi) as Hok.
  assert (forall k2, reads_singleton r k2 ->
            forall j k', <[i := k2]> (Threads.threads c0) !! j = Some k' ->
                         reads_singleton r k') as Hins.
  { intros k2 Hk2 j k' Hj.
    apply list_lookup_insert_Some in Hj as [(-> & <- & _)|[Hne Hj]];
      [done|by apply (Hk j)]. }
  destruct k as [| | |tmp| |ret|ret]; cbn in Hok; try done.
  - destruct (Threads._context_lock c0); [done|]. cbn.
    split; [done|]. by apply Hins.
  - rewrite Hp, Hd. cbn. split; [done|]. by apply Hins.
  - cbn. split; [done|]. apply Hins. cbn. by rewrite Hp.
  - cbn. split; [done|]. by apply Hins.
Qed.

Lemma concurrent_later_access_witness :
  exists p0,
    import_module ∅ = Ok p0
    /\ Threads.run_threads (Threads.spawn (snd (get_current p0)) 2)
         [0; 1; 0; 0; 0; 1; 1; 1; 1]%nat
       = {| Threads.proc := snd (get_current p0);
            Threads._context_lock := false;
            Threads.threads := [Threads.Returned (Some 0%nat);
                                Threads.Returned (Some 0%nat)] |}
    /\ Threads.proc
         (Threads.run_threads (Threads.spawn (snd (get_current p0)) 2)
            [0; 1; 0; 0; 0; 1; 1; 1; 1]%nat)
       = snd (get_current p0).
Proof.
  eexists. split; [vm_compute; reflexivity|].
  split; [vm_compute; reflexivity|].
  match goal with
  | |- Threads.proc (Threads.run_threads (Threads.spawn ?p _) ?s) = _ =>
      exact (proj1 (concurrent_later_access p 0%nat 2 s eq_refl))
  end.
Defined.

(** The outcome of a concurrent first access does not depend on the
    schedule: once all the threads have returned, the process is in the
    state one sequential call leaves, the lock is free, and every thread
    has returned the same reference. *)
Theorem concurrent_first_access_outcome
    (p0 : process) (n : nat) (schedule : list nat) :
  _default_context p0 = None ->
  (0 < n)%nat ->
  forallb Threads.has_returned
    (Threads.threads (Threads.run_threads (Threads.spawn p0 n) schedule))
  = true ->
  Threads.run_threads (Threads.spawn p0 n) schedule
  = {| Threads.proc := snd (get_current p0);
       Threads._context_lock := false;
       Threads.threads :=
         replicate n (Threads.Returned (Some (fst (get_current p0)))) |}.
Proof.
  intros H0 Hn Hall.
  pose proof (run_threads_inv p0 H0 _ schedule (spawn_inv p0 n))
    as [Hpc Hlock].
  pose proof (run_threads_length (Threads.spawn p0 n) schedule) as Hlen.
  cbn in Hlen. rewrite length_replicate in Hlen.
  rewrite (get_current_uninitialized p0 H0). cbn [fst snd].
  destruct (Threads.run_threads (Threads.spawn p0 n) schedule)
    as [pr lk ts]. cbn in *.
  assert (forall i k, ts !! i = Some k ->
            k = Threads.Returned (Some (length (heap p0)))
            /\ pr = Threads.published p0) as Hret.
  { intros i k Hi. pose proof (Hpc i k Hi) as Hok.
    pose proof (forallb_lookup _ _ i k Hall Hi) as Hk.
    destruct k; try discriminate Hk. cbn in Hok.
    destruct Hok as [-> ->]. done. }
  f_equal.
  - destruct (lookup_lt_is_Some_2 ts 0) as [k Hk]; [lia|].
    by destruct (Hret 0%nat k Hk) as [_ ->].
  - unfold Threads.lock_ok in Hlock. cbn in Hlock.
    destruct lk; [|done]. destruct Hlock as (i & k & Hi & Hin & _).
    destruct (Hret i k Hi) as [-> _]. discriminate Hin.
  - symmetry. apply replicate_as_Forall. split; [done|].
    apply Forall_lookup. intros i k Hi. by destruct (Hret i k Hi) as [-> _].
Qed.

Lemma concurrent_first_access_outcome_witness :
  exists p0,
    import_module ∅ = Ok p0
    /\ Threads.run_threads (Threads.spawn p0 3)
         [2; 0; 2; 1; 2; 2; 2; 2; 1; 0; 1; 1; 1; 0; 0; 0; 0]%nat
       = {| Threads.proc := snd (get_current p0);
            Threads._context_lock := false;
            Threads.threads :=
              replicate 3 (Threads.Returned (Some (fst (get_current p0)))) |}.
Proof.
  eexists. split; [vm_compute; reflexivity|].
  apply concurrent_first_access_outcome; [reflexivity|lia|reflexivity].
Defined.
